(** * MCP host: multi-session tool orchestrator (app.py)

    A shallow embedding of [MCPClient] and [MultiMCPManager] from
    [app.py], and the properties of session start-up, of the tool
    registry and of the per-turn tool-call protocol.

    Python values are embedded as follows.
    - A [dict] literal is an association list in insertion order
      ([pydict]); [d.get(k)] is [dict_get].
    - [self.tool_to_client] and [client.tool_server_map] are only ever
      written by key and read by key, so they are finite maps ([gmap]).
    - A Python list that is shared with the caller ([history]) lives in
      a store of list objects and is passed by reference ([loc]).
    - The model backend, the tool sessions and the subprocess start-up
      are the environment: they are parameters of the development and
      every call to them is recorded in the [World]. *)

From stdpp Require Import gmap strings list fin_maps sorting.
From Stdlib Require Import ZArith Permutation.

Open Scope string_scope.
Open Scope list_scope.

Set Warnings "-register-all".

(** ** Python values *)

Inductive pyval :=
| PyNone
| PyStr (s : string)
| PyDict (d : list (string * pyval))
| PyObj (repr : string).

Definition pydict := list (string * pyval).

(** [d.get(k)]: the value stored under [k], [None] when absent. *)
Fixpoint dict_get (d : pydict) (k : string) : pyval :=
  match d with
  | [] => PyNone
  | (k', v) :: d' => if String.eqb k' k then v else dict_get d' k
  end.

(** An entry of the chat history: a gradio [ChatMessage] object or a
    plain mapping, [dict[str, Any] | ChatMessage]. *)
Inductive history_entry :=
| ChatMessage (role content metadata : pyval)
| HDict (d : pydict).

Definition nl : string := String (Ascii.ascii_of_nat 10) EmptyString.

(** [sep.join(l)] *)
Fixpoint join (sep : string) (l : list string) : string :=
  match l with
  | [] => EmptyString
  | [x] => x
  | x :: l' => x +:+ sep +:+ join sep l'
  end.

(** ** The model backend *)

Inductive ContentBlock :=
| TextBlock (text : string)
| ToolUseBlock (name : string) (input : pyval)
| OtherBlock (type : string).

Record Message := { content : list ContentBlock }.

(** The keyword arguments of [anthropic.messages.create]; [tools] is
    [None] when the keyword is not passed. *)
Record MessagesRequest := {
  model : string;
  max_tokens : Z;
  messages : list pydict;
  tools : option (list pydict)
}.

(** ** Tool sessions *)

(** A tool as listed by an MCP server ([response.tools]). *)
Record Tool := {
  name : string;
  description : pyval;
  inputSchema : pyval
}.

(** One [session.call_tool(tool_name, tool_args)], on the session
    with handle [tc_session]. *)
Record ToolCall := {
  tc_session : nat;
  tc_name : string;
  tc_args : pyval
}.

(** ** Exceptions and the world *)

Inductive exn :=
| AttributeError (attr : string)
| BackendCallError (msg : string)
| ToolExecutionError (msg : string).

Inductive outcome (A : Type) :=
| Return (a : A)
| Raise (e : exn).
Arguments Return {A} a.
Arguments Raise {A} e.

(** What the environment answers to a call. *)
Inductive reply (A : Type) :=
| Reply (a : A)
| Failure (msg : string).
Arguments Reply {A} a.
Arguments Failure {A} msg.

Definition loc := nat.

(** The store of list objects is total: a reference always denotes an
    object, and [next_loc] is the first reference not handed out yet. *)
Record World := {
  heap : loc -> list history_entry;
  next_loc : loc;
  backend_log : list MessagesRequest;
  session_log : list ToolCall
}.

Definition M (A : Type) : Type := World -> outcome A * World.

Definition ret {A} (a : A) : M A := fun w => (Return a, w).

Definition raise {A} (e : exn) : M A := fun w => (Raise e, w).

Definition bind {A B} (c : M A) (k : A -> M B) : M B :=
  fun w => match c w with
           | (Return a, w') => k a w'
           | (Raise e, w') => (Raise e, w')
           end.

Notation "x <~ c ;; k" := (bind c (fun x => k))
  (at level 100, c at next level, right associativity).

(** ** MCPClient *)

Record MCPClient := {
  server_name : string;
  session : option nat;
  client_tools : list pydict;
  tool_server_map : gmap string string
}.

(** [MCPClient(server_name)] *)
Definition MCPClient_init (server_name : string) : MCPClient :=
  {| server_name := server_name; session := None;
     client_tools := []; tool_server_map := ∅ |}.

(** What happens when [connect] launches the server: the subprocess
    cannot be started ([stdio_client] raises, before [self.session] is
    assigned), the handshake or the tool listing raises (after
    [self.session] is assigned), or the server answers with its tools.
    What is raised is an [Exception], with [msg] its [str]; the exit
    stack and the transport streams are not part of the model. *)
Inductive connect_outcome :=
| SpawnFailed (msg : string)
| HandshakeFailed (sid : nat) (msg : string)
| Connected (sid : nat) (tools : list Tool).

Definition tool_dict (tool : Tool) : pydict :=
  [("name", PyStr (name tool));
   ("description", description tool);
   ("input_schema", inputSchema tool)].

(** [tool["name"]] for the dictionaries built by [tool_dict]. *)
Definition tool_name_of (tool : pydict) : string :=
  match dict_get tool "name" with
  | PyStr s => s
  | _ => EmptyString
  end.

(** [MCPClient.connect]: the client after the call and the summary it
    returns, or the message of the exception it raises. *)
Definition connect (self : MCPClient) (oc : connect_outcome)
  : MCPClient * reply string :=
  match oc with
  | SpawnFailed msg => (self, Failure msg)
  | HandshakeFailed sid msg =>
      ({| server_name := server_name self; session := Some sid;
          client_tools := client_tools self;
          tool_server_map := tool_server_map self |}, Failure msg)
  | Connected sid response_tools =>
      let tools := map tool_dict response_tools in
      let tool_server_map :=
        foldl (fun m tool => <[name tool := server_name self]> m)
              ∅ response_tools in
      let tool_names := map tool_name_of tools in
      ({| server_name := server_name self; session := Some sid;
          client_tools := tools; tool_server_map := tool_server_map |},
       Reply (server_name self
              +:+ "と接続しました。利用可能なツール: "
              +:+ join ", " tool_names))
  end.

(** ** MultiMCPManager *)

(** [self.os_client] and [self.disk_client] are client objects; the
    registry holds references to them.  [clients] is the store of
    client objects, reference [0] being [os_client] and reference [1]
    [disk_client]. *)
Record MultiMCPManager := {
  clients : nat -> MCPClient;
  all_tools : list pydict;
  tool_to_client : gmap string nat;
  model_name : string
}.

Definition os_client : nat := 0.
Definition disk_client : nat := 1.

(** [MultiMCPManager()] *)
Definition MultiMCPManager_init : MultiMCPManager :=
  {| clients := fun r =>
       match r with
       | 0 => MCPClient_init "mcp_os_name"
       | 1 => MCPClient_init "mcp_disk_usage"
       | _ => MCPClient_init EmptyString
       end;
     all_tools := [];
     tool_to_client := ∅;
     model_name := "claude-3-7-sonnet-20250219" |}.

Definition set_client (self : MultiMCPManager) (r : nat) (c : MCPClient)
  : MultiMCPManager :=
  {| clients := fun r' => if Nat.eqb r' r then c else clients self r';
     all_tools := all_tools self;
     tool_to_client := tool_to_client self;
     model_name := model_name self |}.

(** [for tool_name in client.tool_server_map:
       self.tool_to_client[tool_name] = client] *)
Definition register_tools (tool_server_map : gmap string string)
    (client : nat) (tool_to_client : gmap string nat) : gmap string nat :=
  map_fold (fun tool_name _ acc => <[tool_name := client]> acc)
           tool_to_client tool_server_map.

(** [_connect_client]: the manager after the task and the status
    string the task returns. *)
Definition _connect_client (self : MultiMCPManager) (client : nat)
    (server_path : string) (oc : connect_outcome)
  : MultiMCPManager * string :=
  let (c, r) := connect (clients self client) oc in
  let self := set_client self client c in
  match r with
  | Reply result =>
      ({| clients := clients self;
          all_tools := all_tools self ++ client_tools c;
          tool_to_client :=
            register_tools (tool_server_map c) client (tool_to_client self);
          model_name := model_name self |},
       result)
  | Failure e =>
      (self, "Failed to connect to " +:+ server_path +:+ " server: " +:+ e)
  end.

(** [asyncio.gather] runs one task per entry of [servers].  A task
    suspends only inside [client.connect]; what follows the [await]
    (extending [all_tools], the registration loop, the [return]) and
    the [except] branch contain no [await] and so run without
    interleaving, at the moment the task's [connect] finishes.  The
    environment decides what each launch does ([launch]) and when each
    task finishes ([finish], an instant per task; tasks finishing at
    the same instant are not ordered by the model). *)
Section Startup.

Variable launch : nat -> string -> connect_outcome.
Variable finish : nat -> nat.

Definition finishes_no_later (i j : nat) : Prop := finish i <= finish j.

#[local] Instance finishes_no_later_dec i j :
  Decision (finishes_no_later i j) := le_dec (finish i) (finish j).

(** The task indices in the order in which the tasks finish. *)
Definition completion_order (n : nat) : list nat :=
  merge_sort finishes_no_later (seq 0 n).

(** The tasks of [order], run to completion one after the other;
    [results] collects the value each task returns. *)
Fixpoint run_tasks (servers : list (nat * string)) (order : list nat)
    (self : MultiMCPManager) (results : gmap nat string)
  : MultiMCPManager * gmap nat string :=
  match order with
  | [] => (self, results)
  | i :: order' =>
      match servers !! i with
      | Some (client, path) =>
          let (self', r) :=
            _connect_client self client path (launch i path) in
          run_tasks servers order' self' (<[i := r]> results)
      | None => run_tasks servers order' self results
      end
  end.

(** [results = await asyncio.gather] over [tasks], with
    [return_exceptions=True]: the values of the tasks, in the order
    of [tasks]. *)
Definition gather (servers : list (nat * string))
    (self : MultiMCPManager) : MultiMCPManager * list string :=
  let (self', results) :=
    run_tasks servers (completion_order (length servers)) self ∅ in
  (self', omap (fun i => results !! i) (seq 0 (length servers))).

(** [_initialize_servers], for any list of (client, path) pairs. *)
Definition _initialize_servers_of (servers : list (nat * string))
    (self : MultiMCPManager) : MultiMCPManager * string :=
  let (self', results) := gather servers self in
  (self', join nl results).

Definition servers : list (nat * string) :=
  [(os_client, "server/mcp_os_name.py");
   (disk_client, "server/mcp_disk_usage.py")].

Definition _initialize_servers (self : MultiMCPManager)
  : MultiMCPManager * string :=
  _initialize_servers_of servers self.

End Startup.

(** ** The conversation engine *)

Definition set_backend_log (w : World) (l : list MessagesRequest) : World :=
  {| heap := heap w; next_loc := next_loc w;
     backend_log := l; session_log := session_log w |}.

Definition set_session_log (w : World) (l : list ToolCall) : World :=
  {| heap := heap w; next_loc := next_loc w;
     backend_log := backend_log w; session_log := l |}.

(** Iterating over, or copying from, the list object at [l]. *)
Definition read_list (l : loc) : M (list history_entry) :=
  fun w => (Return (heap w l), w).

(** A new list object holding [v]. *)
Definition new_list (v : list history_entry) : M loc :=
  fun w =>
    (Return (next_loc w),
     {| heap := fun l => if Nat.eqb l (next_loc w) then v else heap w l;
        next_loc := S (next_loc w);
        backend_log := backend_log w; session_log := session_log w |}).

(** [a + b] on lists, [b] being a list that no one else refers to:
    a new list object with the elements of [a] followed by those of [b]. *)
Definition list_add (a : loc) (b : list history_entry) : M loc :=
  x <~ read_list a ;;
  new_list (x ++ b).

Definition role_and_content (msg : history_entry) : pyval * pyval :=
  match msg with
  | ChatMessage role content _ => (role, content)
  | HDict d => (dict_get d "role", dict_get d "content")
  end.

(** [role in ["user", "assistant", "system"]] *)
Definition role_in_roles (role : pyval) : bool :=
  match role with
  | PyStr s =>
      String.eqb s "user" || String.eqb s "assistant" || String.eqb s "system"
  | _ => false
  end.

(** The loop over [history] that fills [claude_messages]. *)
Fixpoint compose_history (history : list history_entry)
    (claude_messages : list pydict) : list pydict :=
  match history with
  | [] => claude_messages
  | msg :: history' =>
      let (role, content) := role_and_content msg in
      if role_in_roles role
      then compose_history history'
             (claude_messages ++ [[("role", role); ("content", content)]])
      else compose_history history' claude_messages
  end.

Definition assistant_message (text : string) : pydict :=
  [("role", PyStr "assistant"); ("content", PyStr text)].

Definition raw_result_message (tool_name result_text : string) : pydict :=
  [("role", PyStr "assistant");
   ("content", PyStr ("```" +:+ nl +:+ result_text +:+ nl +:+ "```"));
   ("metadata",
    PyDict [("parent_id", PyStr ("result_" +:+ tool_name));
            ("id", PyStr ("raw_result_" +:+ tool_name));
            ("title", PyStr "Raw Output")])].

Definition tool_result_message (tool_name result_text : string) : pydict :=
  [("role", PyStr "user");
   ("content",
    PyStr ("Tool result for " +:+ tool_name +:+ ":" +:+ nl +:+ result_text))].

(** A [gr.Textbox] component, as far as [process_message] sets it. *)
Record Textbox := { value : string }.

Section Engine.

(** The model backend: what the [n]-th call of the turn's world
    answers to a request. *)
Variable messages_create : nat -> MessagesRequest -> reply Message.

(** The tool sessions: what session [sid] answers to the [n]-th tool
    call; the answer is [str(result.content)]. *)
Variable session_call_tool : nat -> nat -> string -> pyval -> reply string.

(** [self.anthropic.messages.create(...)] *)
Definition anthropic_messages_create (req : MessagesRequest) : M Message :=
  fun w =>
    let w' := set_backend_log w (backend_log w ++ [req]) in
    match messages_create (length (backend_log w)) req with
    | Reply response => (Return response, w')
    | Failure msg => (Raise (BackendCallError msg), w')
    end.

(** [session.call_tool(tool_name, tool_args)] and [str(result.content)] *)
Definition call_tool (sid : nat) (tool_name : string) (tool_args : pyval)
  : M string :=
  fun w =>
    let w' :=
      set_session_log w
        (session_log w ++ [{| tc_session := sid; tc_name := tool_name;
                              tc_args := tool_args |}]) in
    match session_call_tool sid (length (session_log w))
                            tool_name tool_args with
    | Reply result_text => (Return result_text, w')
    | Failure msg => (Raise (ToolExecutionError msg), w')
    end.

Variable self : MultiMCPManager.

(** [client.session] for [client = self.tool_to_client.get(tool_name)]:
    [None] has no attribute [session]. *)
Definition client_session (tool_name : string) : M (option nat) :=
  match tool_to_client self !! tool_name with
  | None => raise (AttributeError "session")
  | Some client => ret (session (clients self client))
  end.

(** [client.session.call_tool]: [None] has no attribute [call_tool]. *)
Definition session_call (s : option nat) (tool_name : string)
    (tool_args : pyval) : M string :=
  match s with
  | None => raise (AttributeError "call_tool")
  | Some sid => call_tool sid tool_name tool_args
  end.

(** The body of the loop over [response.content]; the two lists are
    [claude_messages] and [result_messages]. *)
Definition process_block (block : ContentBlock)
    (st : list pydict * list pydict) : M (list pydict * list pydict) :=
  let (claude_messages, result_messages) := st in
  match block with
  | TextBlock text =>
      ret (claude_messages, result_messages ++ [assistant_message text])
  | ToolUseBlock tool_name tool_args =>
      s <~ client_session tool_name ;;
      result_text <~ session_call s tool_name tool_args ;;
      let result_messages :=
        result_messages ++ [raw_result_message tool_name result_text] in
      let claude_messages :=
        claude_messages ++ [tool_result_message tool_name result_text] in
      next_response <~ anthropic_messages_create
        {| model := model_name self; max_tokens := 1024;
           messages := claude_messages; tools := None |} ;;
      match content next_response with
      | TextBlock text :: _ =>
          ret (claude_messages, result_messages ++ [assistant_message text])
      | _ => ret (claude_messages, result_messages)
      end
  | OtherBlock _ => ret (claude_messages, result_messages)
  end.

Fixpoint process_content (blocks : list ContentBlock)
    (st : list pydict * list pydict) : M (list pydict * list pydict) :=
  match blocks with
  | [] => ret st
  | block :: blocks' =>
      st' <~ process_block block st ;;
      process_content blocks' st'
  end.

Definition user_message (message : string) : pydict :=
  [("role", PyStr "user"); ("content", PyStr message)].

(** The request of Model-Call-1. *)
Definition first_request (message : string) (h : list history_entry)
  : MessagesRequest :=
  {| model := model_name self; max_tokens := 1024;
     messages := compose_history h [] ++ [user_message message];
     tools := Some (all_tools self) |}.

Definition _process_query (message : string) (history : loc)
  : M (list pydict) :=
  h <~ read_list history ;;
  let claude_messages := compose_history h [] ++ [user_message message] in
  response <~ anthropic_messages_create
    {| model := model_name self; max_tokens := 1024;
       messages := claude_messages; tools := Some (all_tools self) |} ;;
  st <~ process_content (content response) (claude_messages, []) ;;
  ret (snd st).

Definition process_message (message : string) (history : loc)
  : M (loc * Textbox) :=
  new_messages <~ _process_query message history ;;
  tmp <~ list_add history [HDict (user_message message)] ;;
  updated_history <~ list_add tmp (map HDict new_messages) ;;
  let textbox_reset := {| value := EmptyString |} in
  ret (updated_history, textbox_reset).

End Engine.

(** * Notions used in the statements *)

(** [w'] is [w] with [reqs] appended to the backend log and [calls]
    to the session log; the store of list objects is untouched. *)
Definition extends (w w' : World) (reqs : list MessagesRequest)
    (calls : list ToolCall) : Prop :=
  heap w' = heap w /\ next_loc w' = next_loc w /\
  backend_log w' = backend_log w ++ reqs /\
  session_log w' = session_log w ++ calls.

Definition is_tool_use (block : ContentBlock) : bool :=
  match block with
  | ToolUseBlock _ _ => true
  | _ => false
  end.

Fixpoint tool_use_count (blocks : list ContentBlock) : nat :=
  match blocks with
  | [] => 0
  | block :: blocks' =>
      (if is_tool_use block then 1 else 0) + tool_use_count blocks'
  end.

(** The texts of the [text] blocks, in order. *)
Fixpoint text_blocks (blocks : list ContentBlock) : list string :=
  match blocks with
  | [] => []
  | TextBlock text :: blocks' => text :: text_blocks blocks'
  | _ :: blocks' => text_blocks blocks'
  end.

(** The assistant message of Model-Call-2, if its response has one. *)
Definition follow_up (next_response : Message) : list pydict :=
  match content next_response with
  | TextBlock text :: _ => [assistant_message text]
  | _ => []
  end.

(** The role and the content of a history entry, read from the
    attributes of a [ChatMessage] or from the keys of a mapping. *)
Definition entry_role (e : history_entry) : pyval :=
  match e with
  | ChatMessage role _ _ => role
  | HDict d => dict_get d "role"
  end.

Definition entry_content (e : history_entry) : pyval :=
  match e with
  | ChatMessage _ content _ => content
  | HDict d => dict_get d "content"
  end.

(** The role is one of user, assistant, system. *)
Definition chat_role (role : pyval) : Prop :=
  role = PyStr "user" \/ role = PyStr "assistant" \/ role = PyStr "system".

#[global] Instance chat_role_dec role : Decision (chat_role role).
Proof.
  unfold chat_role. destruct role as [|s|d|r];
    try (right; intros [H|[H|H]]; discriminate).
  destruct (decide (s = "user")) as [->|H1]; [left; auto|].
  destruct (decide (s = "assistant")) as [->|H2]; [left; auto|].
  destruct (decide (s = "system")) as [->|H3]; [left; auto|].
  right. intros [H|[H|H]]; injection H; auto.
Defined.

(** The entry as it is sent to the backend. *)
Definition backend_message (e : history_entry) : pydict :=
  [("role", entry_role e); ("content", entry_content e)].

(** The outcome of a launch lists a tool of that name. *)
Definition advertises (oc : connect_outcome) (tool_name : string) : Prop :=
  match oc with
  | Connected _ response_tools => tool_name ∈ map name response_tools
  | _ => False
  end.

(** Task [i] of [servers] connects and its server lists [tool_name]. *)
Definition task_advertises (launch : nat -> string -> connect_outcome)
    (servers : list (nat * string)) (i : nat) (tool_name : string) : Prop :=
  match servers !! i with
  | Some (_, path) => advertises (launch i path) tool_name
  | None => False
  end.

(** The status entry of a launch: the success summary, or the
    failure line naming the path of the server. *)
Definition status_line (self : MultiMCPManager) (client : nat)
    (path : string) (oc : connect_outcome) : string :=
  match oc with
  | Connected _ response_tools =>
      server_name (clients self client)
      +:+ "と接続しました。利用可能なツール: "
      +:+ join ", " (map name response_tools)
  | SpawnFailed msg | HandshakeFailed _ msg =>
      "Failed to connect to " +:+ path +:+ " server: " +:+ msg
  end.

(** Every client the registry refers to has a session. *)
Definition registry_connected (self : MultiMCPManager) : Prop :=
  forall tool_name client,
    tool_to_client self !! tool_name = Some client ->
    is_Some (session (clients self client)).

(** The tool dictionaries task [i] adds to the catalog: those of its
    server when its launch connects, none otherwise. *)
Definition task_tools (launch : nat -> string -> connect_outcome)
    (servers : list (nat * string)) (i : nat) : list pydict :=
  match servers !! i with
  | Some (_, path) =>
      match launch i path with
      | Connected _ response_tools => map tool_dict response_tools
      | _ => []
      end
  | None => []
  end.

(** [reqs] are follow-up requests on a buffer that starts as
    [claude_messages]: each one is the buffer of the one before with
    one tool result appended as a user message, for the model and the
    token limit of the manager, and without a tool catalog. *)
Fixpoint request_chain (self : MultiMCPManager)
    (claude_messages : list pydict) (reqs : list MessagesRequest) : Prop :=
  match reqs with
  | [] => True
  | req :: reqs' =>
      model req = model_name self /\
      max_tokens req = 1024%Z /\
      tools req = None /\
      (exists tool_name result_text,
         messages req
         = claude_messages ++ [tool_result_message tool_name result_text]) /\
      request_chain self (messages req) reqs'
  end.

(** The messages one content block can add to the output of a turn
    that completes. *)
Inductive block_output : ContentBlock -> list pydict -> Prop :=
| block_output_text text :
    block_output (TextBlock text) [assistant_message text]
| block_output_tool tool_name tool_args result_text :
    block_output (ToolUseBlock tool_name tool_args)
      [raw_result_message tool_name result_text]
| block_output_tool_text tool_name tool_args result_text text :
    block_output (ToolUseBlock tool_name tool_args)
      [raw_result_message tool_name result_text; assistant_message text]
| block_output_other type :
    block_output (OtherBlock type) [].

(** The tool call a [tool_use] block leads to when its name resolves
    to a client that has a session. *)
Definition expected_call (self : MultiMCPManager) (block : ContentBlock)
  : option ToolCall :=
  match block with
  | ToolUseBlock tool_name tool_args =>
      match tool_to_client self !! tool_name with
      | Some client =>
          match session (clients self client) with
          | Some sid =>
              Some {| tc_session := sid; tc_name := tool_name;
                      tc_args := tool_args |}
          | None => None
          end
      | None => None
      end
  | _ => None
  end.

(** Why a block can end in an [AttributeError]: its tool name is not
    in the registry ([None] has no [session]), or it resolves to a
    client without a session ([None] has no [call_tool]). *)
Definition attribute_error_cause (self : MultiMCPManager)
    (block : ContentBlock) (attr : string) : Prop :=
  exists tool_name tool_args,
    block = ToolUseBlock tool_name tool_args /\
    ((attr = "session" /\ tool_to_client self !! tool_name = None) \/
     (attr = "call_tool" /\
      exists client, tool_to_client self !! tool_name = Some client /\
                     session (clients self client) = None)).

(** A message dictionary for the assistant role whose content is a
    string. *)
Definition assistant_text (m : pydict) : Prop :=
  dict_get m "role" = PyStr "assistant" /\
  exists text, dict_get m "content" = PyStr text.

(** [k in d] *)
Definition has_key (d : pydict) (k : string) : bool :=
  existsb (fun kv => String.eqb (fst kv) k) d.

(** * Sample runs *)

(** The tool of [server/mcp_os_name.py]. *)
Definition get_os_name_tool : Tool :=
  {| name := "get_os_name";
     description := PyStr "OSの名前を取得します。";
     inputSchema := PyDict [] |}.

(** The first server connects, the second cannot be started. *)
Definition sample_launch (i : nat) (path : string) : connect_outcome :=
  match i with
  | 0 => Connected 10 [get_os_name_tool]
  | _ => SpawnFailed "No such file or directory"
  end.

Definition sample_finish (i : nat) : nat := i.

Definition sample_manager : MultiMCPManager :=
  fst (_initialize_servers sample_launch sample_finish MultiMCPManager_init).

(** Both servers connect and list the same tool; the second one is
    ready before the first. *)
Definition both_launch (i : nat) (path : string) : connect_outcome :=
  Connected (10 + i) [get_os_name_tool].

Definition reversed_finish (i : nat) : nat := 2 - i.

Definition sample_history : list history_entry :=
  [HDict [("role", PyStr "user"); ("content", PyStr "hi")];
   ChatMessage (PyStr "assistant") (PyStr "hello") PyNone;
   HDict [("role", PyStr "tool"); ("content", PyStr "x")];
   HDict [("content", PyStr "no role")]].

Definition sample_world : World :=
  {| heap := fun l => match l with 0 => sample_history | _ => [] end;
     next_loc := 1; backend_log := []; session_log := [] |}.

Definition backend_text_only (n : nat) (req : MessagesRequest)
  : reply Message :=
  Reply {| content := [TextBlock "Hello."; OtherBlock "thinking";
                       TextBlock "How can I help?"] |}.

Definition backend_one_tool (n : nat) (req : MessagesRequest)
  : reply Message :=
  match n with
  | 0 => Reply {| content := [TextBlock "Let me check.";
                              ToolUseBlock "get_os_name" (PyDict []);
                              TextBlock "Done."] |}
  | _ => Reply {| content := [TextBlock "You run Linux.";
                              TextBlock "Anything else?"] |}
  end.

Definition backend_unknown_tool (n : nat) (req : MessagesRequest)
  : reply Message :=
  Reply {| content := [TextBlock "Let me check.";
                       ToolUseBlock "get_weather" (PyDict [])] |}.

Definition backend_down (n : nat) (req : MessagesRequest) : reply Message :=
  Failure "overloaded".

(** The backend answers Model-Call-1 and is down for the follow-up. *)
Definition backend_follow_up_down (n : nat) (req : MessagesRequest)
  : reply Message :=
  match n with
  | 0 => Reply {| content := [TextBlock "Let me check.";
                              ToolUseBlock "get_os_name" (PyDict []);
                              TextBlock "Done."] |}
  | _ => Failure "overloaded"
  end.

Definition sessions_ok (sid n : nat) (tool_name : string) (args : pyval)
  : reply string := Reply "Linux".

Definition sessions_broken (sid n : nat) (tool_name : string) (args : pyval)
  : reply string := Failure "connection closed".

(** * Properties *)

(** ** The monad *)

Lemma bind_Raise {A B} (c : M A) (k : A -> M B) w e w' :
  c w = (Raise e, w') -> bind c k w = (Raise e, w').
Proof. intros H. unfold bind. now rewrite H. Qed.

(** ** What a run adds to the world *)

Lemma extends_refl w : extends w w [] [].
Proof. unfold extends. now rewrite !app_nil_r. Qed.

Lemma extends_trans w1 w2 w3 r1 r2 c1 c2 :
  extends w1 w2 r1 c1 -> extends w2 w3 r2 c2 ->
  extends w1 w3 (r1 ++ r2) (c1 ++ c2).
Proof.
  intros (Hh1 & Hn1 & Hb1 & Hs1) (Hh2 & Hn2 & Hb2 & Hs2).
  unfold extends. rewrite Hh2, Hn2, Hb2, Hs2, Hh1, Hn1, Hb1, Hs1.
  now rewrite !app_assoc.
Qed.

(** ** Composing the request *)

Lemma role_in_roles_chat_role role :
  role_in_roles role = true <-> chat_role role.
Proof.
  unfold chat_role. destruct role as [|s|d|r]; simpl;
    try (split; [discriminate|intros [H|[H|H]]; discriminate]).
  rewrite !orb_true_iff, !String.eqb_eq. split.
  - intros [[->| ->]| ->]; auto.
  - intros [H|[H|H]]; injection H; auto.
Qed.

Lemma compose_history_filter h claude_messages :
  compose_history h claude_messages =
  claude_messages
  ++ map backend_message (filter (fun e => chat_role (entry_role e)) h).
Proof.
  revert claude_messages. induction h as [|e h IH]; intros cm.
  - simpl. now rewrite app_nil_r.
  - assert (Hrc : role_and_content e = (entry_role e, entry_content e))
      by now destruct e.
    simpl compose_history. rewrite Hrc.
    destruct (role_in_roles (entry_role e)) eqn:Hr.
    + apply role_in_roles_chat_role in Hr.
      rewrite filter_cons_True by assumption.
      rewrite IH. simpl. now rewrite <- app_assoc.
    + rewrite filter_cons_False; [apply IH|].
      intros Hc. apply role_in_roles_chat_role in Hc. congruence.
Qed.

(** ** The loop over the content blocks *)

Section EngineFacts.

Variable messages_create : nat -> MessagesRequest -> reply Message.
Variable session_call_tool : nat -> nat -> string -> pyval -> reply string.
Variable self : MultiMCPManager.

Local Abbreviation process_block :=
  (process_block messages_create session_call_tool self).
Local Abbreviation process_content :=
  (process_content messages_create session_call_tool self).

Lemma process_content_cons block blocks st w :
  process_content (block :: blocks) st w =
  bind (process_block block st) (process_content blocks) w.
Proof. reflexivity. Qed.

Lemma process_content_app pre post st w :
  process_content (pre ++ post) st w =
  bind (process_content pre st) (process_content post) w.
Proof.
  revert st w. induction pre as [|block pre IH]; intros st w.
  - reflexivity.
  - simpl. unfold bind in *.
    destruct (process_block block st w) as [[st'|e] w']; [apply IH | reflexivity].
Qed.

(** One block makes at most one tool call and one follow-up request,
    and exactly one of each when it is a [tool_use] block that
    completes; the follow-up request carries no tool catalog. *)
Lemma process_block_trace block st w :
  exists reqs calls,
    extends w (snd (process_block block st w)) reqs calls /\
    Forall (fun r => tools r = None) reqs /\
    Forall (fun c => is_Some (tool_to_client self !! tc_name c)) calls /\
    length reqs <= tool_use_count [block] /\
    length calls <= tool_use_count [block] /\
    (forall st', fst (process_block block st w) = Return st' ->
       length reqs = tool_use_count [block] /\
       length calls = tool_use_count [block]).
Proof.
  destruct st as [cm rm].
  destruct block as [text|tool_name tool_args|ty]; simpl.
  - exists [], []. split; [apply extends_refl|]. repeat split; auto.
  - unfold bind, client_session, session_call, call_tool,
      anthropic_messages_create, ret, raise.
    destruct (tool_to_client self !! tool_name) as [client|] eqn:Hc;
      [|exists [], []; simpl; split; [apply extends_refl|];
        repeat split; auto; discriminate].
    destruct (session (clients self client)) as [sid|];
      [|exists [], []; simpl; split; [apply extends_refl|];
        repeat split; auto; discriminate].
    set (call := {| tc_session := sid; tc_name := tool_name;
                    tc_args := tool_args |}).
    destruct (session_call_tool sid (length (session_log w))
                tool_name tool_args) as [result_text|msg].
    + set (req := {| model := model_name self; max_tokens := 1024;
                     messages := cm ++ [tool_result_message tool_name result_text];
                     tools := None |}).
      exists [req], [call].
      assert (Hreg : is_Some (tool_to_client self !! tc_name call))
        by (simpl; rewrite Hc; eauto).
      simpl backend_log.
      destruct (messages_create (length (backend_log w)) req) as [resp|msg].
      * destruct (content resp) as [|[text| |] ?]; simpl;
          (split; [unfold extends; simpl; auto|]);
          repeat split; auto.
      * simpl. split; [unfold extends; simpl; auto|].
        repeat split; auto; discriminate.
    + exists [], [call]. simpl.
      split; [unfold extends; simpl; rewrite app_nil_r; auto|].
      repeat split; auto; try discriminate.
  - exists [], []. split; [apply extends_refl|]. repeat split; auto.
Qed.

Lemma process_block_unresolved tool_name tool_args st w :
  tool_to_client self !! tool_name = None ->
  process_block (ToolUseBlock tool_name tool_args) st w =
  (Raise (AttributeError "session"), w).
Proof.
  intros Hc. destruct st as [cm rm]. simpl.
  unfold bind, client_session, raise. now rewrite Hc.
Qed.

Lemma process_block_tool_failure tool_name tool_args st w client sid msg :
  tool_to_client self !! tool_name = Some client ->
  session (clients self client) = Some sid ->
  session_call_tool sid (length (session_log w)) tool_name tool_args
    = Failure msg ->
  process_block (ToolUseBlock tool_name tool_args) st w =
  (Raise (ToolExecutionError msg),
   set_session_log w
     (session_log w ++ [{| tc_session := sid; tc_name := tool_name;
                           tc_args := tool_args |}])).
Proof.
  intros Hc Hs Ht. destruct st as [cm rm]. simpl.
  unfold bind, client_session, session_call, call_tool, ret.
  now rewrite Hc, Hs, Ht.
Qed.

Lemma process_block_follow_up_failure tool_name tool_args cm rm w
    client sid result_text msg :
  tool_to_client self !! tool_name = Some client ->
  session (clients self client) = Some sid ->
  session_call_tool sid (length (session_log w)) tool_name tool_args
    = Reply result_text ->
  messages_create (length (backend_log w))
    {| model := model_name self; max_tokens := 1024;
       messages := cm ++ [tool_result_message tool_name result_text];
       tools := None |} = Failure msg ->
  process_block (ToolUseBlock tool_name tool_args) (cm, rm) w =
  (Raise (BackendCallError msg),
   set_backend_log
     (set_session_log w
        (session_log w ++ [{| tc_session := sid; tc_name := tool_name;
                              tc_args := tool_args |}]))
     (backend_log w ++
        [{| model := model_name self; max_tokens := 1024;
            messages := cm ++ [tool_result_message tool_name result_text];
            tools := None |}])).
Proof.
  intros Hc Hs Ht Hm. simpl.
  unfold bind, client_session, session_call, call_tool,
    anthropic_messages_create, ret, raise.
  rewrite Hc, Hs, Ht. simpl backend_log. now rewrite Hm.
Qed.

Lemma process_content_trace blocks st w :
  exists reqs calls,
    extends w (snd (process_content blocks st w)) reqs calls /\
    Forall (fun r => tools r = None) reqs /\
    Forall (fun c => is_Some (tool_to_client self !! tc_name c)) calls /\
    length reqs <= tool_use_count blocks /\
    length calls <= tool_use_count blocks /\
    (forall st', fst (process_content blocks st w) = Return st' ->
       length reqs = tool_use_count blocks /\
       length calls = tool_use_count blocks).
Proof.
  revert st w. induction blocks as [|block blocks IH]; intros st w.
  - exists [], []. split; [apply extends_refl|]. repeat split; auto.
  - destruct (process_block_trace block st w)
      as (r1 & c1 & He1 & Hr1 & Hc1 & Hlr1 & Hlc1 & Hok1).
    simpl process_content. unfold bind.
    simpl tool_use_count in *. rewrite Nat.add_0_r in *.
    destruct (process_block block st w) as [[st1|e] w1]; simpl in *.
    + destruct (IH st1 w1) as (r2 & c2 & He2 & Hr2 & Hc2 & Hlr2 & Hlc2 & Hok2).
      destruct (Hok1 st1 eq_refl) as [Hr Hc].
      exists (r1 ++ r2), (c1 ++ c2).
      split; [eapply extends_trans; eauto|].
      rewrite !Forall_app, !length_app.
      split; [auto|]. split; [auto|]. split; [lia|]. split; [lia|].
      intros st' Hst'. destruct (Hok2 st' Hst'). lia.
    + exists r1, c1. split; [exact He1|].
      split; [auto|]. split; [auto|]. split; [lia|]. split; [lia|].
      discriminate.
Qed.

(** Blocks other than [tool_use] touch nothing but [result_messages]. *)
Lemma process_content_no_tool_use blocks cm rm w :
  tool_use_count blocks = 0 ->
  process_content blocks (cm, rm) w =
  (Return (cm, rm ++ map assistant_message (text_blocks blocks)), w).
Proof.
  revert rm. induction blocks as [|block blocks IH]; intros rm Hn.
  - simpl. now rewrite app_nil_r.
  - destruct block as [text| |ty]; simpl in Hn; try discriminate.
    + simpl. unfold bind, ret. rewrite IH by assumption.
      now rewrite <- app_assoc.
    + simpl. unfold bind, ret. now rewrite IH.
Qed.

(** A [tool_use] block whose tool resolves to a connected client,
    whose tool call succeeds and whose follow-up call succeeds. *)
Lemma process_block_tool_use tool_name tool_args cm rm w
    client sid result_text next_response :
  tool_to_client self !! tool_name = Some client ->
  session (clients self client) = Some sid ->
  session_call_tool sid (length (session_log w)) tool_name tool_args
    = Reply result_text ->
  messages_create (length (backend_log w))
    {| model := model_name self; max_tokens := 1024;
       messages := cm ++ [tool_result_message tool_name result_text];
       tools := None |} = Reply next_response ->
  process_block (ToolUseBlock tool_name tool_args) (cm, rm) w =
  (Return (cm ++ [tool_result_message tool_name result_text],
           rm ++ raw_result_message tool_name result_text
              :: follow_up next_response),
   set_backend_log
     (set_session_log w
        (session_log w ++ [{| tc_session := sid; tc_name := tool_name;
                              tc_args := tool_args |}]))
     (backend_log w ++
        [{| model := model_name self; max_tokens := 1024;
            messages := cm ++ [tool_result_message tool_name result_text];
            tools := None |}])).
Proof.
  intros Hc Hs Ht Hm. simpl.
  unfold bind, client_session, session_call, call_tool,
    anthropic_messages_create, ret, raise.
  rewrite Hc, Hs, Ht. simpl backend_log. rewrite Hm.
  unfold follow_up.
  destruct (content next_response) as [|[text| |] ?]; simpl;
    rewrite <- ?app_assoc; simpl; try rewrite app_nil_r; reflexivity.
Qed.

End EngineFacts.

(** ** One turn *)

Section Turn.

Variable messages_create : nat -> MessagesRequest -> reply Message.
Variable session_call_tool : nat -> nat -> string -> pyval -> reply string.
Variable self : MultiMCPManager.

Local Abbreviation process_block :=
  (process_block messages_create session_call_tool self).
Local Abbreviation process_content :=
  (process_content messages_create session_call_tool self).
Local Abbreviation _process_query :=
  (_process_query messages_create session_call_tool self).
Local Abbreviation process_message :=
  (process_message messages_create session_call_tool self).

(** The world right after Model-Call-1. *)
Local Abbreviation after_first message history w :=
  (set_backend_log w
     (backend_log w ++ [first_request self message (heap w history)])).

Lemma _process_query_Reply message history w response :
  messages_create (length (backend_log w))
    (first_request self message (heap w history)) = Reply response ->
  _process_query message history w =
  bind (process_content (content response)
          (messages (first_request self message (heap w history)), []))
       (fun st => ret (snd st))
       (after_first message history w).
Proof.
  intros H.
  unfold _process_query, bind at 1 2, read_list,
    anthropic_messages_create.
  change {| model := model_name self; max_tokens := 1024;
            messages := compose_history (heap w history) []
                        ++ [user_message message];
            tools := Some (all_tools self) |}
    with (first_request self message (heap w history)).
  now rewrite H.
Qed.

Lemma _process_query_Failure message history w msg :
  messages_create (length (backend_log w))
    (first_request self message (heap w history)) = Failure msg ->
  _process_query message history w =
  (Raise (BackendCallError msg), after_first message history w).
Proof.
  intros H.
  unfold _process_query, bind, read_list,
    anthropic_messages_create.
  change {| model := model_name self; max_tokens := 1024;
            messages := compose_history (heap w history) []
                        ++ [user_message message];
            tools := Some (all_tools self) |}
    with (first_request self message (heap w history)).
  now rewrite H.
Qed.

(** Model-Call-1 is the first thing a turn does, whatever follows. *)
Lemma _process_query_trace message history w :
  exists followups calls,
    extends w (snd (_process_query message history w))
      (first_request self message (heap w history) :: followups) calls /\
    Forall (fun r => tools r = None) followups /\
    Forall (fun c => is_Some (tool_to_client self !! tc_name c)) calls /\
    forall response,
      messages_create (length (backend_log w))
        (first_request self message (heap w history)) = Reply response ->
      length followups <= tool_use_count (content response) /\
      length calls <= tool_use_count (content response) /\
      (forall msgs, fst (_process_query message history w) = Return msgs ->
         length followups = tool_use_count (content response) /\
         length calls = tool_use_count (content response)).
Proof.
  destruct (messages_create (length (backend_log w))
              (first_request self message (heap w history)))
    as [response|msg] eqn:Hmc.
  - rewrite (_process_query_Reply _ _ _ _ Hmc).
    set (st0 := (messages (first_request self message (heap w history)),
                 @nil pydict)).
    set (w1 := after_first message history w).
    destruct (process_content_trace messages_create session_call_tool self
                (content response) st0 w1)
      as (reqs & calls & He & Hr & Hc & Hlr & Hlc & Hok).
    exists reqs, calls. unfold bind.
    destruct (process_content (content response) st0 w1)
      as [[st1|e] w2]; simpl in *.
    + split.
      { destruct He as (Hh & Hn & Hb & Hs). unfold extends.
        rewrite Hh, Hn, Hb, Hs. simpl. now rewrite <- app_assoc. }
      split; [auto|]. split; [auto|].
      intros response' Heq. injection Heq as <-.
      split; [lia|]. split; [lia|]. intros msgs _. now apply (Hok st1).
    + split.
      { destruct He as (Hh & Hn & Hb & Hs). unfold extends.
        rewrite Hh, Hn, Hb, Hs. simpl. now rewrite <- app_assoc. }
      split; [auto|]. split; [auto|].
      intros response' Heq. injection Heq as <-.
      split; [lia|]. split; [lia|]. discriminate.
  - rewrite (_process_query_Failure _ _ _ _ Hmc).
    exists [], []. simpl. split.
    { unfold extends. simpl. now rewrite app_nil_r. }
    split; [auto|]. split; [auto|]. discriminate.
Qed.

(** C6. When the response of Model-Call-1 has no [tool_use] block,
    the turn returns exactly the assistant messages of its [text]
    blocks, in order, and no session is called. *)
Theorem no_tool_use_turn message history w response :
  messages_create (length (backend_log w))
    (first_request self message (heap w history)) = Reply response ->
  tool_use_count (content response) = 0 ->
  fst (_process_query message history w)
    = Return (map assistant_message (text_blocks (content response))) /\
  session_log (snd (_process_query message history w)) = session_log w.
Proof.
  intros Hmc Hn. rewrite (_process_query_Reply _ _ _ _ Hmc).
  unfold bind. rewrite process_content_no_tool_use by assumption.
  simpl. auto.
Qed.

(** C4 (as the code has it). When the response of Model-Call-1 has
    exactly one [tool_use] block, whose tool resolves to a connected
    session and whose tool call and follow-up model call succeed, the
    turn returns the
    assistant messages of the text blocks before it, then the raw
    result message of the tool, then the text of Model-Call-2 if it
    has one, and after these the assistant messages of the text
    blocks behind the [tool_use] block; the raw result message sits
    right behind the messages of the leading text blocks. *)
Theorem single_tool_use_output_order message history w response
    pre tool_name tool_args post client sid result_text next_response :
  messages_create (length (backend_log w))
    (first_request self message (heap w history)) = Reply response ->
  content response = pre ++ ToolUseBlock tool_name tool_args :: post ->
  tool_use_count pre = 0 ->
  tool_use_count post = 0 ->
  tool_to_client self !! tool_name = Some client ->
  session (clients self client) = Some sid ->
  session_call_tool sid (length (session_log w)) tool_name tool_args
    = Reply result_text ->
  messages_create (length (backend_log w) + 1)
    {| model := model_name self; max_tokens := 1024;
       messages := messages (first_request self message (heap w history))
                   ++ [tool_result_message tool_name result_text];
       tools := None |} = Reply next_response ->
  let output :=
    map assistant_message (text_blocks pre)
    ++ raw_result_message tool_name result_text
       :: follow_up next_response
    ++ map assistant_message (text_blocks post) in
  fst (_process_query message history w) = Return output /\
  output !! length (text_blocks pre)
    = Some (raw_result_message tool_name result_text).
Proof.
  intros Hmc Hcontent Hpre Hpost Hc Hs Ht Hm2 output. split.
  - rewrite (_process_query_Reply _ _ _ _ Hmc), Hcontent.
    unfold bind at 1. rewrite process_content_app. unfold bind at 1.
    rewrite process_content_no_tool_use by assumption.
    rewrite process_content_cons. unfold bind at 1.
    erewrite process_block_tool_use; eauto.
    + rewrite process_content_no_tool_use by assumption.
      simpl. unfold output. f_equal.
      now rewrite <- !app_assoc.
    + simpl backend_log. rewrite length_app. simpl length. exact Hm2.
  - unfold output. rewrite lookup_app_r; rewrite length_map; [|lia].
    now rewrite Nat.sub_diag.
Qed.


(** C10. After a successful tool call, the follow-up assistant
    message is appended exactly when the response of Model-Call-2 is
    not empty and starts with a text block; it carries the text of
    that first block, and text blocks further on are dropped. *)
Theorem follow_up_iff_first_block_is_text tool_name tool_args cm rm w
    client sid result_text next_response :
  tool_to_client self !! tool_name = Some client ->
  session (clients self client) = Some sid ->
  session_call_tool sid (length (session_log w)) tool_name tool_args
    = Reply result_text ->
  messages_create (length (backend_log w))
    {| model := model_name self; max_tokens := 1024;
       messages := cm ++ [tool_result_message tool_name result_text];
       tools := None |} = Reply next_response ->
  exists appended,
    fst (process_block (ToolUseBlock tool_name tool_args) (cm, rm) w)
      = Return (cm ++ [tool_result_message tool_name result_text],
                rm ++ raw_result_message tool_name result_text :: appended) /\
    ((exists text rest,
        content next_response = TextBlock text :: rest /\
        appended = [assistant_message text]) \/
     ((forall text rest, content next_response <> TextBlock text :: rest) /\
      appended = [])).
Proof.
  intros Hc Hs Ht Hm.
  exists (follow_up next_response). split.
  - erewrite process_block_tool_use; eauto.
  - unfold follow_up.
    destruct (content next_response) as [|[text| |] rest].
    + right. split; [discriminate|reflexivity].
    + left. eauto.
    + right. split; [discriminate|reflexivity].
    + right. split; [discriminate|reflexivity].
Qed.

(** C9. The request of Model-Call-1 holds, for the entries of the
    history whose role is user, assistant or system, their role and
    content, read from a [ChatMessage] or from a mapping alike, in
    the order of the history, followed by the new user message; the
    other entries are left out. *)
Theorem compose_keeps_chat_roles message history w :
  let request := first_request self message (heap w history) in
  (exists followups,
     backend_log (snd (_process_query message history w))
       = backend_log w ++ request :: followups) /\
  messages request
    = map backend_message
        (filter (fun e => chat_role (entry_role e)) (heap w history))
      ++ [user_message message].
Proof.
  intros request. split.
  - destruct (_process_query_trace message history w)
      as (followups & calls & (_ & _ & Hb & _) & _).
    now exists followups.
  - unfold request, first_request. simpl.
    now rewrite compose_history_filter.
Qed.

(** C1 (as the code has it). When the response of Model-Call-1 has
    a [tool_use] block whose name is not in the registry, no session
    is called for that name, and the turn returns no output: it
    ends in an uncaught exception.  When no [tool_use] block stands
    before it, the exception is the [AttributeError] of reading
    [session] from [None], and nothing but Model-Call-1 has happened. *)
Theorem unresolved_tool_aborts_turn message history w response
    pre tool_name tool_args post :
  messages_create (length (backend_log w))
    (first_request self message (heap w history)) = Reply response ->
  content response = pre ++ ToolUseBlock tool_name tool_args :: post ->
  tool_to_client self !! tool_name = None ->
  (exists e, fst (_process_query message history w) = Raise e) /\
  (exists calls,
     session_log (snd (_process_query message history w))
       = session_log w ++ calls /\
     Forall (fun c => tc_name c <> tool_name) calls) /\
  (tool_use_count pre = 0 ->
   _process_query message history w
     = (Raise (AttributeError "session"), after_first message history w)).
Proof.
  intros Hmc Hcontent Hnone. split; [|split].
  - rewrite (_process_query_Reply _ _ _ _ Hmc), Hcontent.
    unfold bind at 1. rewrite process_content_app. unfold bind at 1.
    destruct (process_content pre _ _) as [[st1|e] w1]; [|eauto].
    rewrite process_content_cons. unfold bind.
    rewrite process_block_unresolved by assumption. eauto.
  - destruct (_process_query_trace message history w)
      as (followups & calls & (_ & _ & _ & Hs) & _ & Hreg & _).
    exists calls. split; [assumption|].
    eapply Forall_impl; [exact Hreg|].
    intros c [client Hclient] Heq. simpl in Hclient. congruence.
  - intros Hpre.
    rewrite (_process_query_Reply _ _ _ _ Hmc), Hcontent.
    unfold bind at 1. rewrite process_content_app. unfold bind at 1.
    rewrite process_content_no_tool_use by assumption.
    rewrite process_content_cons. unfold bind.
    now rewrite process_block_unresolved by assumption.
Qed.

Lemma process_message_Raise message history w e w' :
  _process_query message history w = (Raise e, w') ->
  process_message message history w = (Raise e, w').
Proof. intros H. unfold process_message. now apply bind_Raise. Qed.

(** C2 (as the code has it). When the call of a resolved tool
    fails, the failure leaves the turn-handling entry point as an
    uncaught exception: the turn returns no output, makes no
    follow-up model call and does not process the blocks behind the
    failing one.  A failure of a model-backend call leaves it the same
    way, be it Model-Call-1 or the follow-up call of any [tool_use]
    block: no output is returned and nothing behind the failing call
    is done. *)
Theorem tool_failure_aborts_turn message history w :
  (forall response pre tool_name tool_args post st1 w1 client sid msg,
     messages_create (length (backend_log w))
       (first_request self message (heap w history)) = Reply response ->
     content response = pre ++ ToolUseBlock tool_name tool_args :: post ->
     process_content pre
       (messages (first_request self message (heap w history)), [])
       (after_first message history w) = (Return st1, w1) ->
     tool_to_client self !! tool_name = Some client ->
     session (clients self client) = Some sid ->
     session_call_tool sid (length (session_log w1)) tool_name tool_args
       = Failure msg ->
     process_message message history w =
     (Raise (ToolExecutionError msg),
      set_session_log w1
        (session_log w1 ++ [{| tc_session := sid; tc_name := tool_name;
                               tc_args := tool_args |}]))) /\
  (forall msg,
     messages_create (length (backend_log w))
       (first_request self message (heap w history)) = Failure msg ->
     process_message message history w =
     (Raise (BackendCallError msg), after_first message history w)) /\
  (forall response pre tool_name tool_args post cm1 rm1 w1 client sid
          result_text msg,
     messages_create (length (backend_log w))
       (first_request self message (heap w history)) = Reply response ->
     content response = pre ++ ToolUseBlock tool_name tool_args :: post ->
     process_content pre
       (messages (first_request self message (heap w history)), [])
       (after_first message history w) = (Return (cm1, rm1), w1) ->
     tool_to_client self !! tool_name = Some client ->
     session (clients self client) = Some sid ->
     session_call_tool sid (length (session_log w1)) tool_name tool_args
       = Reply result_text ->
     messages_create (length (backend_log w1))
       {| model := model_name self; max_tokens := 1024;
          messages := cm1 ++ [tool_result_message tool_name result_text];
          tools := None |} = Failure msg ->
     process_message message history w =
     (Raise (BackendCallError msg),
      set_backend_log
        (set_session_log w1
           (session_log w1 ++ [{| tc_session := sid; tc_name := tool_name;
                                  tc_args := tool_args |}]))
        (backend_log w1 ++
           [{| model := model_name self; max_tokens := 1024;
               messages := cm1 ++ [tool_result_message tool_name
                                     result_text];
               tools := None |}]))).
Proof.
  split; [|split].
  - intros response pre tool_name tool_args post st1 w1 client sid msg
      Hmc Hcontent Hpre Hc Hs Hfail.
    apply process_message_Raise.
    rewrite (_process_query_Reply _ _ _ _ Hmc), Hcontent.
    unfold bind at 1. rewrite process_content_app. unfold bind at 1.
    rewrite Hpre. rewrite process_content_cons. unfold bind.
    now erewrite process_block_tool_failure by eassumption.
  - intros msg Hmc. apply process_message_Raise.
    now apply _process_query_Failure.
  - intros response pre tool_name tool_args post cm1 rm1 w1 client sid
      result_text msg Hmc Hcontent Hpre Hc Hs Ht Hfail.
    apply process_message_Raise.
    rewrite (_process_query_Reply _ _ _ _ Hmc), Hcontent.
    unfold bind at 1. rewrite process_content_app. unfold bind at 1.
    rewrite Hpre. rewrite process_content_cons. unfold bind.
    now erewrite process_block_follow_up_failure by eassumption.
Qed.

(** C8. [process_message] leaves every list object that exists when
    it is called as it was, the history among them; what it returns
    is a list object that did not exist before, holding the old
    history, then the new user message, then the new messages of
    the turn. *)
Theorem process_message_keeps_history message history w :
  history < next_loc w ->
  (forall l, l < next_loc w ->
     heap (snd (process_message message history w)) l = heap w l) /\
  (forall updated_history textbox_reset,
     fst (process_message message history w)
       = Return (updated_history, textbox_reset) ->
     updated_history <> history /\
     next_loc w <= updated_history /\
     exists new_messages,
       fst (_process_query message history w) = Return new_messages /\
       heap (snd (process_message message history w)) updated_history
         = heap w history
           ++ [HDict (user_message message)]
           ++ map HDict new_messages).
Proof.
  intros Hlt.
  destruct (_process_query_trace message history w)
    as (followups & calls & (Hh & Hn & _) & _).
  unfold process_message, list_add, bind, read_list, new_list, ret.
  destruct (_process_query message history w) as [[msgs|e] w1];
    simpl in Hh, Hn.
  - simpl. rewrite Hn, Hh. split.
    + intros l Hl.
      destruct (Nat.eqb_spec l (S (next_loc w))); [lia|].
      destruct (Nat.eqb_spec l (next_loc w)); [lia|reflexivity].
    + intros updated_history textbox_reset Heq.
      injection Heq as Hu _. subst updated_history. split; [lia|].
      split; [lia|]. exists msgs. split; [reflexivity|].
      rewrite Nat.eqb_refl, Nat.eqb_refl.
      destruct (Nat.eqb_spec history (next_loc w)); [lia|].
      now rewrite <- app_assoc.
  - simpl. split; [intros; now rewrite Hh|discriminate].
Qed.

End Turn.

(** ** Start-up *)

Lemma register_tools_lookup (m : gmap string string) client
    (t : gmap string nat) k :
  register_tools m client t !! k =
  match m !! k with
  | Some _ => Some client
  | None => t !! k
  end.
Proof.
  unfold register_tools. revert k.
  apply (map_fold_weak_ind
           (fun (r : gmap string nat) (m : gmap string string) =>
              forall k, r !! k = match m !! k with
                                 | Some _ => Some client
                                 | None => t !! k
                                 end)).
  - intros k. now rewrite lookup_empty.
  - intros i x m' r Hi IH k.
    destruct (decide (i = k)) as [->|Hne].
    + now rewrite !lookup_insert_eq.
    + rewrite !lookup_insert_ne by assumption. apply IH.
Qed.

Lemma tool_server_map_lookup sn (response_tools : list Tool)
    (m : gmap string string) k :
  is_Some (foldl (fun m tool => <[name tool := sn]> m) m response_tools !! k)
  <-> k ∈ map name response_tools \/ is_Some (m !! k).
Proof.
  revert m. induction response_tools as [|tool l IH]; intros m; simpl.
  - rewrite elem_of_nil. tauto.
  - rewrite IH, elem_of_cons.
    destruct (decide (name tool = k)) as [->|Hne].
    + rewrite lookup_insert_eq. split; [auto|]. intros _. right. eauto.
    + rewrite lookup_insert_ne by assumption.
      split; [tauto|]. intros [[Heq|H]|H]; [congruence|auto|auto].
Qed.

Lemma tool_names_of_tool_dicts (response_tools : list Tool) :
  map tool_name_of (map tool_dict response_tools) = map name response_tools.
Proof. induction response_tools; simpl; [|f_equal]; auto. Qed.

Lemma connect_server_name self oc :
  server_name (fst (connect self oc)) = server_name self.
Proof. now destruct oc. Qed.

Lemma _connect_client_status self client path oc :
  snd (_connect_client self client path oc) = status_line self client path oc.
Proof.
  unfold _connect_client. destruct oc; simpl; try reflexivity.
  now rewrite tool_names_of_tool_dicts.
Qed.

Lemma _connect_client_server_name self client path oc r :
  server_name (clients (fst (_connect_client self client path oc)) r)
  = server_name (clients self r).
Proof.
  unfold _connect_client.
  pose proof (connect_server_name (clients self client) oc) as Hsn.
  destruct (connect (clients self client) oc) as [c [result|e]];
    simpl in *; destruct (Nat.eqb_spec r client); subst; auto.
Qed.

Lemma _connect_client_registers self client path oc k :
  advertises oc k ->
  tool_to_client (fst (_connect_client self client path oc)) !! k
  = Some client.
Proof.
  unfold _connect_client. destruct oc as [msg|sid msg|sid l]; simpl;
    try contradiction.
  intros Hk. rewrite register_tools_lookup.
  destruct (tool_server_map_lookup (server_name (clients self client)) l ∅ k)
    as [_ [x Hx]]; [auto|].
  now rewrite Hx.
Qed.

Lemma _connect_client_keeps self client path oc k :
  ~ advertises oc k ->
  tool_to_client (fst (_connect_client self client path oc)) !! k
  = tool_to_client self !! k.
Proof.
  unfold _connect_client. destruct oc as [msg|sid msg|sid l]; simpl;
    try reflexivity.
  intros Hk. rewrite register_tools_lookup.
  destruct (foldl _ _ _ !! k) eqn:Hx; [|reflexivity].
  exfalso. apply Hk.
  destruct (tool_server_map_lookup (server_name (clients self client)) l ∅ k)
    as [[H|[? H]] _]; [rewrite Hx; eauto|assumption|].
  now rewrite lookup_empty in H.
Qed.

Lemma status_line_server_name self self' client path oc :
  server_name (clients self' client) = server_name (clients self client) ->
  status_line self' client path oc = status_line self client path oc.
Proof. intros H. destruct oc; simpl; now rewrite ?H. Qed.

Lemma omap_total {A B} (f : A -> option B) (g : A -> B) (l : list A) :
  (forall x, x ∈ l -> f x = Some (g x)) -> omap f l = map g l.
Proof.
  induction l as [|x l IH]; intros H; simpl; [reflexivity|].
  rewrite (H x) by (apply elem_of_cons; auto).
  f_equal. apply IH. intros y Hy. apply H. apply elem_of_cons; auto.
Qed.

Section StartupFacts.

Variable launch : nat -> string -> connect_outcome.
Variable finish : nat -> nat.

Local Abbreviation run_tasks := (run_tasks launch).

#[local] Instance finishes_no_later_total : Total (finishes_no_later finish).
Proof. intros i j. unfold finishes_no_later. lia. Qed.

#[local] Instance finishes_no_later_trans :
  Transitive (finishes_no_later finish).
Proof. intros i j k. unfold finishes_no_later. lia. Qed.

Lemma completion_order_elem n i : i ∈ completion_order finish n <-> i < n.
Proof.
  unfold completion_order. rewrite merge_sort_Permutation, elem_of_seq. lia.
Qed.



Lemma run_tasks_app specs l1 l2 self res :
  run_tasks specs (l1 ++ l2) self res =
  run_tasks specs l2 (fst (run_tasks specs l1 self res))
                     (snd (run_tasks specs l1 self res)).
Proof.
  revert self res. induction l1 as [|i l1 IH]; intros self res; simpl.
  - reflexivity.
  - destruct (specs !! i) as [[client path]|]; [|apply IH].
    destruct (_connect_client self client path (launch i path)). apply IH.
Qed.

Lemma run_tasks_server_name specs order self res r :
  server_name (clients (fst (run_tasks specs order self res)) r)
  = server_name (clients self r).
Proof.
  revert self res. induction order as [|i order IH]; intros self res; simpl.
  - reflexivity.
  - destruct (specs !! i) as [[client path]|]; [|apply IH].
    pose proof (_connect_client_server_name self client path
                  (launch i path) r) as Hsn.
    destruct (_connect_client self client path (launch i path)) as [self' s].
    rewrite IH. exact Hsn.
Qed.


Lemma run_tasks_results_notin specs order self res (i : nat) :
  i ∉ order -> snd (run_tasks specs order self res) !! i = res !! i.
Proof.
  revert self res. induction order as [|j order IH]; intros self res Hi;
    simpl.
  - reflexivity.
  - apply not_elem_of_cons in Hi as [Hne Hi].
    destruct (specs !! j) as [[client path]|]; [|now apply IH].
    destruct (_connect_client self client path (launch j path)) as [self' s].
    rewrite IH by assumption. now apply lookup_insert_ne.
Qed.

(** The value a task returns depends on its own launch only. *)
Lemma run_tasks_results_in specs order self res (i : nat) client path :
  i ∈ order ->
  specs !! i = Some (client, path) ->
  snd (run_tasks specs order self res) !! i
  = Some (status_line self client path (launch i path)).
Proof.
  revert self res. induction order as [|j order IH]; intros self res Hi Hspec.
  - now apply elem_of_nil in Hi.
  - simpl. destruct (decide (i ∈ order)) as [Hin|Hnotin].
    + destruct (specs !! j) as [[cj pj]|]; [|now apply IH].
      pose proof (_connect_client_server_name self cj pj (launch j pj) client)
        as Hsn.
      destruct (_connect_client self cj pj (launch j pj)) as [self' s].
      rewrite IH by assumption.
      f_equal. now apply status_line_server_name.
    + apply elem_of_cons in Hi as [->|Hi]; [|contradiction].
      rewrite Hspec.
      pose proof (_connect_client_status self client path (launch j path))
        as Hst.
      destruct (_connect_client self client path (launch j path)) as [self' s].
      rewrite run_tasks_results_notin by assumption.
      rewrite lookup_insert_eq. simpl in Hst. now rewrite Hst.
Qed.

Lemma _connect_client_all_tools_mono self client path oc (x : pydict) :
  x ∈ all_tools self ->
  x ∈ all_tools (fst (_connect_client self client path oc)).
Proof.
  unfold _connect_client. destruct oc; simpl; auto.
  intros Hx. apply elem_of_app. auto.
Qed.

Lemma _connect_client_all_tools_new self client path sid response_tools tool :
  tool ∈ response_tools ->
  tool_dict tool
  ∈ all_tools (fst (_connect_client self client path
                      (Connected sid response_tools))).
Proof.
  intros Ht. unfold _connect_client. simpl. apply elem_of_app. right.
  now apply list_elem_of_fmap_2.
Qed.

Lemma run_tasks_all_tools_mono specs order self res (x : pydict) :
  x ∈ all_tools self ->
  x ∈ all_tools (fst (run_tasks specs order self res)).
Proof.
  revert self res. induction order as [|i order IH]; intros self res Hx;
    simpl.
  - assumption.
  - destruct (specs !! i) as [[client path]|]; [|now apply IH].
    pose proof (_connect_client_all_tools_mono self client path
                  (launch i path) x Hx) as Hmono.
    destruct (_connect_client self client path (launch i path)) as [self' s].
    now apply IH.
Qed.

Lemma gather_fst specs self :
  fst (gather launch finish specs self)
  = fst (run_tasks specs (completion_order finish (length specs)) self ∅).
Proof. unfold gather. now destruct (run_tasks _ _ _ _). Qed.

Lemma _initialize_servers_of_fst specs self :
  fst (_initialize_servers_of launch finish specs self)
  = fst (run_tasks specs (completion_order finish (length specs)) self ∅).
Proof.
  unfold _initialize_servers_of. rewrite <- gather_fst.
  now destruct (gather _ _ _ _).
Qed.

Lemma gather_snd specs self :
  snd (gather launch finish specs self)
  = map (fun i => match specs !! i with
                  | Some (client, path) =>
                      status_line self client path (launch i path)
                  | None => EmptyString
                  end)
        (seq 0 (length specs)).
Proof.
  unfold gather.
  pose proof (fun i client path =>
                run_tasks_results_in specs
                  (completion_order finish (length specs)) self ∅
                  i client path) as Hres.
  destruct (run_tasks _ _ _ _) as [self' results]. simpl in *.
  apply omap_total. intros i Hi. apply elem_of_seq in Hi.
  destruct (specs !! i) as [[client path]|] eqn:Hspec.
  - apply Hres; [|exact Hspec]. apply completion_order_elem. lia.
  - apply lookup_ge_None in Hspec. lia.
Qed.

(** C5. Start-up returns one status entry per launch spec, whatever
    the launches do and whenever they finish: entry [i] is the success
    summary of spec [i] if its launch connects and the failure line
    naming its path otherwise, so it depends on no other spec; the
    returned string is these entries joined by newlines, and the tools
    of every spec that connects end up in the catalog. *)
Theorem one_status_per_spec specs self :
  let results := snd (gather launch finish specs self) in
  length results = length specs /\
  (forall i client path,
     specs !! i = Some (client, path) ->
     results !! i = Some (status_line self client path (launch i path))) /\
  snd (_initialize_servers_of launch finish specs self) = join nl results /\
  (forall i client path sid response_tools tool,
     specs !! i = Some (client, path) ->
     launch i path = Connected sid response_tools ->
     tool ∈ response_tools ->
     tool_dict tool
     ∈ all_tools (fst (_initialize_servers_of launch finish specs self))).
Proof.
  intros results. unfold results. rewrite gather_snd.
  split; [now rewrite length_map, length_seq|]. split; [|split].
  - intros i client path Hspec.
    rewrite list_lookup_fmap, lookup_seq_lt
      by (apply lookup_lt_Some in Hspec; lia).
    simpl. now rewrite Hspec.
  - unfold _initialize_servers_of.
    pose proof (gather_snd specs self) as Hg.
    destruct (gather launch finish specs self) as [self' res].
    simpl in *. now rewrite Hg.
  - intros i client path sid response_tools tool Hspec Hlaunch Htool.
    rewrite _initialize_servers_of_fst.
    assert (Hin : i ∈ completion_order finish (length specs))
      by (apply completion_order_elem; now apply lookup_lt_Some in Hspec).
    apply list_elem_of_split in Hin as (l1 & l2 & ->).
    rewrite run_tasks_app. simpl. rewrite Hspec, Hlaunch.
    pose proof (_connect_client_all_tools_new
                  (fst (run_tasks specs l1 self ∅)) client path sid
                  response_tools tool Htool) as Hnew.
    destruct (_connect_client _ client path (Connected sid response_tools))
      as [self' s].
    now apply run_tasks_all_tools_mono.
Qed.


End StartupFacts.

(** ** The sample runs *)

Lemma no_tool_use_turn_witness :
  fst (_process_query backend_text_only sessions_ok sample_manager
         "Hi" 0 sample_world)
  = Return [assistant_message "Hello."; assistant_message "How can I help?"]
  /\ session_log (snd (_process_query backend_text_only sessions_ok
                         sample_manager "Hi" 0 sample_world)) = [].
Proof.
  refine (no_tool_use_turn backend_text_only sessions_ok sample_manager
            "Hi" 0 sample_world
            {| content := [TextBlock "Hello."; OtherBlock "thinking";
                           TextBlock "How can I help?"] |} _ _);
    reflexivity.
Defined.

Lemma single_tool_use_output_order_witness :
  fst (_process_query backend_one_tool sessions_ok sample_manager
         "What OS?" 0 sample_world)
  = Return [assistant_message "Let me check.";
            raw_result_message "get_os_name" "Linux";
            assistant_message "You run Linux.";
            assistant_message "Done."].
Proof.
  refine (proj1 (single_tool_use_output_order backend_one_tool sessions_ok
                   sample_manager "What OS?" 0 sample_world
                   {| content := [TextBlock "Let me check.";
                                  ToolUseBlock "get_os_name" (PyDict []);
                                  TextBlock "Done."] |}
                   [TextBlock "Let me check."] "get_os_name" (PyDict [])
                   [TextBlock "Done."] os_client 10 "Linux"
                   {| content := [TextBlock "You run Linux.";
                                  TextBlock "Anything else?"] |}
                   _ _ _ _ _ _ _ _));
    vm_compute; reflexivity.
Defined.

(** C4, as the spec has it, fails: the output does not end with the
    text of Model-Call-2; the text block behind the [tool_use] block
    gives one more assistant message after it. *)
Lemma text_behind_tool_use_is_kept :
  tool_use_count [TextBlock "Let me check.";
                  ToolUseBlock "get_os_name" (PyDict []);
                  TextBlock "Done."] = 1 /\
  fst (_process_query backend_one_tool sessions_ok sample_manager
         "What OS?" 0 sample_world)
  = Return [assistant_message "Let me check.";
            raw_result_message "get_os_name" "Linux";
            assistant_message "You run Linux.";
            assistant_message "Done."] /\
  fst (_process_query backend_one_tool sessions_ok sample_manager
         "What OS?" 0 sample_world)
  <> Return [assistant_message "Let me check.";
             raw_result_message "get_os_name" "Linux";
             assistant_message "You run Linux."].
Proof.
  split; [reflexivity|]. split; [vm_compute; reflexivity|].
  vm_compute. discriminate.
Qed.


Lemma follow_up_iff_first_block_is_text_witness :
  exists appended,
    fst (process_block backend_text_only sessions_ok sample_manager
           (ToolUseBlock "get_os_name" (PyDict [])) ([], []) sample_world)
    = Return ([tool_result_message "get_os_name" "Linux"],
              raw_result_message "get_os_name" "Linux" :: appended) /\
    ((exists text rest,
        [TextBlock "Hello."; OtherBlock "thinking";
         TextBlock "How can I help?"] = TextBlock text :: rest /\
        appended = [assistant_message text]) \/
     ((forall text rest,
         [TextBlock "Hello."; OtherBlock "thinking";
          TextBlock "How can I help?"] <> TextBlock text :: rest) /\
      appended = [])).
Proof.
  refine (follow_up_iff_first_block_is_text backend_text_only sessions_ok
            sample_manager "get_os_name" (PyDict []) [] [] sample_world
            os_client 10 "Linux"
            {| content := [TextBlock "Hello."; OtherBlock "thinking";
                           TextBlock "How can I help?"] |} _ _ _ _);
    vm_compute; reflexivity.
Defined.

Lemma unresolved_tool_aborts_turn_witness :
  _process_query backend_unknown_tool sessions_ok sample_manager
    "What is the weather?" 0 sample_world
  = (Raise (AttributeError "session"),
     set_backend_log sample_world
       ([] ++ [first_request sample_manager "What is the weather?"
                 sample_history])).
Proof.
  refine (proj2 (proj2
            (unresolved_tool_aborts_turn backend_unknown_tool sessions_ok
               sample_manager "What is the weather?" 0 sample_world
               {| content := [TextBlock "Let me check.";
                              ToolUseBlock "get_weather" (PyDict [])] |}
               [TextBlock "Let me check."] "get_weather" (PyDict []) []
               _ _ _)) _);
    vm_compute; reflexivity.
Defined.

(** C1, as the spec has it, fails: the registry does not know
    [get_weather], and the turn ends in an [AttributeError] instead of
    returning an output that shows a resolution error. *)
Lemma unresolved_tool_no_error_message :
  tool_to_client sample_manager !! "get_weather" = None /\
  fst (process_message backend_unknown_tool sessions_ok sample_manager
         "What is the weather?" 0 sample_world)
  = Raise (AttributeError "session") /\
  ~ exists output,
      fst (process_message backend_unknown_tool sessions_ok sample_manager
             "What is the weather?" 0 sample_world) = Return output.
Proof.
  split; [vm_compute; reflexivity|]. split; [vm_compute; reflexivity|].
  intros [output H]. vm_compute in H. discriminate.
Qed.

Lemma tool_failure_aborts_turn_witness :
  fst (process_message backend_one_tool sessions_broken sample_manager
         "What OS?" 0 sample_world)
  = Raise (ToolExecutionError "connection closed") /\
  backend_log (snd (process_message backend_one_tool sessions_broken
                      sample_manager "What OS?" 0 sample_world))
  = [first_request sample_manager "What OS?" sample_history] /\
  fst (process_message backend_down sessions_ok sample_manager
         "What OS?" 0 sample_world)
  = Raise (BackendCallError "overloaded") /\
  fst (process_message backend_follow_up_down sessions_ok sample_manager
         "What OS?" 0 sample_world)
  = Raise (BackendCallError "overloaded") /\
  length (backend_log (snd (process_message backend_follow_up_down
                              sessions_ok sample_manager "What OS?" 0
                              sample_world))) = 2.
Proof.
  pose proof (tool_failure_aborts_turn backend_one_tool sessions_broken
                sample_manager "What OS?" 0 sample_world) as [Htool _].
  pose proof (tool_failure_aborts_turn backend_down sessions_ok
                sample_manager "What OS?" 0 sample_world) as [_ [Hdown _]].
  pose proof (tool_failure_aborts_turn backend_follow_up_down sessions_ok
                sample_manager "What OS?" 0 sample_world)
    as [_ [_ Hfollow]].
  rewrite (Hfollow
             {| content := [TextBlock "Let me check.";
                            ToolUseBlock "get_os_name" (PyDict []);
                            TextBlock "Done."] |}
             [TextBlock "Let me check."] "get_os_name" (PyDict [])
             [TextBlock "Done."]
             (messages (first_request sample_manager "What OS?"
                          sample_history))
             [assistant_message "Let me check."]
             (set_backend_log sample_world
                [first_request sample_manager "What OS?" sample_history])
             os_client 10 "Linux" "overloaded")
    by (vm_compute; reflexivity).
  rewrite (Htool
             {| content := [TextBlock "Let me check.";
                            ToolUseBlock "get_os_name" (PyDict []);
                            TextBlock "Done."] |}
             [TextBlock "Let me check."] "get_os_name" (PyDict [])
             [TextBlock "Done."]
             (messages (first_request sample_manager "What OS?"
                          sample_history),
              [assistant_message "Let me check."])
             (set_backend_log sample_world
                [first_request sample_manager "What OS?" sample_history])
             os_client 10 "connection closed")
    by (vm_compute; reflexivity).
  rewrite (Hdown "overloaded") by reflexivity.
  repeat split.
Defined.

(** C2, as the spec has it, fails: the tool resolves, its call fails,
    and the failure leaves [process_message] as an exception; the text
    block behind the [tool_use] block is never turned into a message. *)
Lemma tool_failure_not_recovered :
  tool_to_client sample_manager !! "get_os_name" = Some os_client /\
  fst (process_message backend_one_tool sessions_broken sample_manager
         "What OS?" 0 sample_world)
  = Raise (ToolExecutionError "connection closed") /\
  ~ exists output,
      fst (process_message backend_one_tool sessions_broken sample_manager
             "What OS?" 0 sample_world) = Return output.
Proof.
  split; [vm_compute; reflexivity|]. split; [vm_compute; reflexivity|].
  intros [output H]. vm_compute in H. discriminate.
Qed.



Lemma one_status_per_spec_witness :
  length (snd (gather sample_launch sample_finish servers
                 MultiMCPManager_init)) = 2 /\
  snd (gather sample_launch sample_finish servers MultiMCPManager_init) !! 1
  = Some ("Failed to connect to server/mcp_disk_usage.py server: "
          +:+ "No such file or directory") /\
  tool_dict get_os_name_tool ∈ all_tools sample_manager.
Proof.
  destruct (one_status_per_spec sample_launch sample_finish servers
              MultiMCPManager_init) as (Hlen & Hentry & _ & Htools).
  split; [exact Hlen|]. split.
  - exact (Hentry 1 disk_client "server/mcp_disk_usage.py" eq_refl).
  - refine (Htools 0 os_client "server/mcp_os_name.py" 10
              [get_os_name_tool] get_os_name_tool eq_refl eq_refl _).
    apply elem_of_cons. left. reflexivity.
Defined.

Lemma process_message_keeps_history_witness :
  heap (snd (process_message backend_one_tool sessions_ok sample_manager
               "What OS?" 0 sample_world)) 0
  = sample_history.
Proof.
  refine (proj1 (process_message_keeps_history backend_one_tool sessions_ok
                   sample_manager "What OS?" 0 sample_world _) 0 _);
    vm_compute; lia.
Defined.

(** * Further properties *)

(** ** The client after [connect] *)

Lemma tool_server_map_value sn (response_tools : list Tool)
    (m : gmap string string) k :
  foldl (fun m tool => <[name tool := sn]> m) m response_tools !! k
  = if decide (k ∈ map name response_tools) then Some sn else m !! k.
Proof.
  revert m. induction response_tools as [|tool l IH]; intros m; simpl.
  - destruct (decide (k ∈ [])) as [H|_]; [|reflexivity].
    now apply elem_of_nil in H.
  - rewrite IH.
    destruct (decide (k ∈ map name l)) as [Hin|Hnotin].
    + rewrite decide_True by (apply elem_of_cons; auto). reflexivity.
    + destruct (decide (name tool = k)) as [Heq|Hne].
      * rewrite decide_True by (apply elem_of_cons; auto).
        subst k. apply lookup_insert_eq.
      * rewrite decide_False
          by (intros [?|?]%elem_of_cons; [congruence|contradiction]).
        now apply lookup_insert_ne.
Qed.

(** X1. After a successful [connect], the client's name map has
    exactly the names the server listed as keys, each mapped to the
    client's server name, whatever the map held before; the client's
    tool dictionaries carry the listed names in the listed order. *)
Theorem connect_replaces_tool_server_map self sid response_tools k :
  tool_server_map (fst (connect self (Connected sid response_tools))) !! k
  = (if decide (k ∈ map name response_tools)
     then Some (server_name self) else None) /\
  map tool_name_of
    (client_tools (fst (connect self (Connected sid response_tools))))
  = map name response_tools.
Proof.
  simpl. split.
  - now rewrite tool_server_map_value, lookup_empty.
  - apply tool_names_of_tool_dicts.
Qed.

(** ** The registry and the catalog after start-up *)

Lemma advertises_dec oc k : {advertises oc k} + {~ advertises oc k}.
Proof.
  destruct oc as [msg|sid msg|sid l]; simpl; [right; tauto|right; tauto|].
  apply (decide (k ∈ map name l)).
Qed.

Lemma _connect_client_registry self client path oc k c :
  tool_to_client (fst (_connect_client self client path oc)) !! k = Some c ->
  tool_to_client self !! k = Some c \/ (c = client /\ advertises oc k).
Proof.
  intros H. destruct (advertises_dec oc k) as [Hadv|Hnot].
  - rewrite _connect_client_registers in H by assumption.
    right. split; [congruence|assumption].
  - rewrite _connect_client_keeps in H by assumption. now left.
Qed.

Lemma _connect_client_registry_mono self client path oc k :
  is_Some (tool_to_client self !! k) ->
  is_Some (tool_to_client (fst (_connect_client self client path oc)) !! k).
Proof.
  intros H. destruct (advertises_dec oc k) as [Hadv|Hnot].
  - rewrite _connect_client_registers by assumption. eauto.
  - now rewrite _connect_client_keeps by assumption.
Qed.

Lemma _connect_client_session_mono self client path oc r :
  is_Some (session (clients self r)) ->
  is_Some (session (clients (fst (_connect_client self client path oc)) r)).
Proof.
  unfold _connect_client. destruct oc as [msg|sid msg|sid l]; simpl;
    destruct (Nat.eqb_spec r client); subst; eauto.
Qed.

Lemma _connect_client_session_connected self client path oc k :
  advertises oc k ->
  is_Some (session (clients (fst (_connect_client self client path oc))
                      client)).
Proof.
  unfold _connect_client. destruct oc as [msg|sid msg|sid l]; simpl;
    try contradiction.
  rewrite Nat.eqb_refl. eauto.
Qed.

Lemma _connect_client_connected self client path oc :
  registry_connected self ->
  registry_connected (fst (_connect_client self client path oc)).
Proof.
  intros Hinv k c Hk.
  apply _connect_client_registry in Hk as [Hold|[-> Hadv]].
  - apply _connect_client_session_mono. eapply Hinv; eauto.
  - eapply _connect_client_session_connected; eauto.
Qed.

Lemma _connect_client_all_tools self client path oc :
  all_tools (fst (_connect_client self client path oc))
  = all_tools self
    ++ match oc with
       | Connected _ response_tools => map tool_dict response_tools
       | _ => []
       end.
Proof.
  unfold _connect_client. destruct oc; simpl; now rewrite ?app_nil_r.
Qed.

Section StartupMore.

Variable launch : nat -> string -> connect_outcome.
Variable finish : nat -> nat.

Local Abbreviation run_tasks := (run_tasks launch).

Lemma run_tasks_registry_sound specs order self res k c :
  tool_to_client (fst (run_tasks specs order self res)) !! k = Some c ->
  tool_to_client self !! k = Some c \/
  exists i path,
    i ∈ order /\ specs !! i = Some (c, path) /\ advertises (launch i path) k.
Proof.
  revert self res. induction order as [|i order IH]; intros self res H;
    simpl in H.
  - now left.
  - destruct (specs !! i) as [[client path]|] eqn:Hspec.
    + pose proof (_connect_client_registry self client path
                    (launch i path) k c) as Hstep.
      destruct (_connect_client self client path (launch i path))
        as [self' s].
      apply IH in H as [H|(j & pj & Hj & Hsj & Haj)].
      * destruct (Hstep H) as [Hold|[-> Hadv]]; [now left|].
        right. exists i, path. split; [apply elem_of_cons; auto|]. auto.
      * right. exists j, pj. split; [apply elem_of_cons; auto|]. auto.
    + apply IH in H as [H|(j & pj & Hj & Hsj & Haj)]; [now left|].
      right. exists j, pj. split; [apply elem_of_cons; auto|]. auto.
Qed.

Lemma run_tasks_registry_mono specs order self res k :
  is_Some (tool_to_client self !! k) ->
  is_Some (tool_to_client (fst (run_tasks specs order self res)) !! k).
Proof.
  revert self res. induction order as [|i order IH]; intros self res H;
    simpl.
  - assumption.
  - destruct (specs !! i) as [[client path]|]; [|now apply IH].
    pose proof (_connect_client_registry_mono self client path
                  (launch i path) k H) as Hstep.
    destruct (_connect_client self client path (launch i path)) as [self' s].
    now apply IH.
Qed.

Lemma run_tasks_registry_complete specs order self res k i :
  i ∈ order ->
  task_advertises launch specs i k ->
  is_Some (tool_to_client (fst (run_tasks specs order self res)) !! k).
Proof.
  revert self res. induction order as [|j order IH]; intros self res Hi Hadv.
  - now apply elem_of_nil in Hi.
  - simpl. apply elem_of_cons in Hi as [->|Hi].
    + unfold task_advertises in Hadv.
      destruct (specs !! j) as [[client path]|]; [|contradiction].
      pose proof (_connect_client_registers self client path
                    (launch j path) k Hadv) as Hreg.
      destruct (_connect_client self client path (launch j path))
        as [self' s].
      apply run_tasks_registry_mono. simpl in Hreg. rewrite Hreg. eauto.
    + destruct (specs !! j) as [[client path]|]; [|now apply IH].
      destruct (_connect_client self client path (launch j path))
        as [self' s].
      now apply IH.
Qed.

Lemma run_tasks_connected specs order self res :
  registry_connected self ->
  registry_connected (fst (run_tasks specs order self res)).
Proof.
  revert self res. induction order as [|i order IH]; intros self res H;
    simpl.
  - assumption.
  - destruct (specs !! i) as [[client path]|]; [|now apply IH].
    pose proof (_connect_client_connected self client path
                  (launch i path) H) as Hstep.
    destruct (_connect_client self client path (launch i path)) as [self' s].
    now apply IH.
Qed.

Lemma run_tasks_all_tools specs order self res :
  all_tools (fst (run_tasks specs order self res))
  = all_tools self ++ concat (map (task_tools launch specs) order).
Proof.
  revert self res. induction order as [|i order IH]; intros self res; simpl.
  - now rewrite app_nil_r.
  - unfold task_tools at 1.
    destruct (specs !! i) as [[client path]|]; [|apply IH].
    pose proof (_connect_client_all_tools self client path (launch i path))
      as Hstep.
    destruct (_connect_client self client path (launch i path)) as [self' s].
    rewrite IH. simpl in Hstep. rewrite Hstep. now rewrite <- app_assoc.
Qed.

(** X2. After start-up the registry knows a name exactly when it knew
    it before or some launch that connected listed it, and a name
    resolves to a client only if it did so before or a launch for
    that very client connected and listed it: launches that fail add
    nothing, and no entry is ever removed. *)
Theorem registry_after_startup specs self k :
  let self' := fst (_initialize_servers_of launch finish specs self) in
  (is_Some (tool_to_client self' !! k) <->
   is_Some (tool_to_client self !! k) \/
   exists i, task_advertises launch specs i k) /\
  (forall c,
     tool_to_client self' !! k = Some c ->
     tool_to_client self !! k = Some c \/
     exists i path,
       specs !! i = Some (c, path) /\ advertises (launch i path) k).
Proof.
  intros self'. unfold self'. rewrite _initialize_servers_of_fst.
  split; [split|].
  - intros [c Hc].
    apply run_tasks_registry_sound in Hc as [H|(i & path & _ & Hs & Ha)].
    + left. eauto.
    + right. exists i. unfold task_advertises. now rewrite Hs.
  - intros [H|[i Hadv]].
    + now apply run_tasks_registry_mono.
    + apply run_tasks_registry_complete with (i := i); [|assumption].
      apply completion_order_elem. unfold task_advertises in Hadv.
      destruct (specs !! i) eqn:Hs; [|contradiction].
      now apply lookup_lt_Some in Hs.
  - intros c Hc.
    apply run_tasks_registry_sound in Hc as [H|(i & path & _ & Hs & Ha)];
      [now left|].
    right. eauto.
Qed.

(** X3. Start-up keeps the invariant that every client the registry
    refers to has a session: a client is registered only by a launch
    that connected it, and no launch takes a session away. *)
Theorem startup_keeps_registry_connected specs self :
  registry_connected self ->
  registry_connected (fst (_initialize_servers_of launch finish specs self)).
Proof.
  intros H. rewrite _initialize_servers_of_fst. now apply run_tasks_connected.
Qed.

(** X4. Start-up appends to the tool catalog, and never removes from
    it: the catalog afterwards is the catalog before followed by the
    tools of the launches that connected, task by task in the order
    in which the tasks finished, each task once. *)
Theorem catalog_after_startup specs self :
  all_tools (fst (_initialize_servers_of launch finish specs self))
  = all_tools self
    ++ concat (map (task_tools launch specs)
                   (completion_order finish (length specs))) /\
  completion_order finish (length specs) ≡ₚ seq 0 (length specs).
Proof.
  split.
  - rewrite _initialize_servers_of_fst. apply run_tasks_all_tools.
  - apply merge_sort_Permutation.
Qed.

End StartupMore.

(** ** More on one turn *)

Section TurnMore.

Variable messages_create : nat -> MessagesRequest -> reply Message.
Variable session_call_tool : nat -> nat -> string -> pyval -> reply string.
Variable self : MultiMCPManager.

Local Abbreviation process_block :=
  (process_block messages_create session_call_tool self).
Local Abbreviation process_content :=
  (process_content messages_create session_call_tool self).
Local Abbreviation _process_query :=
  (_process_query messages_create session_call_tool self).
Local Abbreviation process_message :=
  (process_message messages_create session_call_tool self).

(** Everything one block does. *)
Lemma process_block_spec block cm rm w :
  exists reqs calls,
    extends w (snd (process_block block (cm, rm) w)) reqs calls /\
    request_chain self cm reqs /\
    match fst (process_block block (cm, rm) w) with
    | Return (cm', rm') =>
        (exists out, block_output block out /\ rm' = rm ++ out) /\
        omap (expected_call self) [block] = calls /\
        ((reqs = [] /\ cm' = cm) \/
         (exists req, reqs = [req] /\ cm' = messages req))
    | Raise e =>
        (calls = [] \/
         exists call, expected_call self block = Some call /\ calls = [call])
        /\ (forall attr, e = AttributeError attr ->
                         attribute_error_cause self block attr)
    end.
Proof.
  destruct block as [text|tool_name tool_args|ty]; simpl.
  - exists [], []. split; [apply extends_refl|]. split; [exact I|].
    split; [eexists; split; [constructor|reflexivity]|]. auto.
  - unfold bind, client_session, session_call, call_tool,
      anthropic_messages_create, ret, raise.
    destruct (tool_to_client self !! tool_name) as [client|] eqn:Hc.
    2:{ exists [], []. simpl. split; [apply extends_refl|].
        split; [exact I|]. split; [auto|].
        intros attr [= <-]. exists tool_name, tool_args. auto. }
    destruct (session (clients self client)) as [sid|] eqn:Hs.
    2:{ exists [], []. simpl. split; [apply extends_refl|].
        split; [exact I|]. split; [auto|].
        intros attr [= <-]. exists tool_name, tool_args.
        split; [reflexivity|]. right. eauto. }
    set (call := {| tc_session := sid; tc_name := tool_name;
                    tc_args := tool_args |}).
    destruct (session_call_tool sid (length (session_log w))
                tool_name tool_args) as [result_text|msg].
    2:{ exists [], [call]. simpl.
        split; [unfold extends; simpl; rewrite app_nil_r; auto|].
        split; [exact I|]. split; [|discriminate].
        right. exists call. auto. }
    set (req := {| model := model_name self; max_tokens := 1024;
                   messages := cm ++ [tool_result_message tool_name
                                        result_text];
                   tools := None |}).
    exists [req], [call]. simpl backend_log.
    assert (Hchain : request_chain self cm [req])
      by (simpl; repeat split; eauto).
    destruct (messages_create (length (backend_log w)) req) as [resp|msg].
    + destruct (content resp) as [|[text| |] ?]; simpl;
        (split; [unfold extends; simpl; auto|]);
        (split; [exact Hchain|]);
        (split;
         [first [ exists [raw_result_message tool_name result_text;
                          assistant_message text];
                  split; [apply block_output_tool_text
                         |now rewrite <- app_assoc]
                | exists [raw_result_message tool_name result_text];
                  split; [apply block_output_tool|reflexivity] ]|]);
        (split; [reflexivity|]); right; exists req; auto.
    + simpl. split; [unfold extends; simpl; auto|].
      split; [exact Hchain|]. split; [|discriminate].
      right. exists call. auto.
  - exists [], []. split; [apply extends_refl|]. split; [exact I|].
    split; [exists []; split; [constructor|now rewrite app_nil_r]|]. auto.
Qed.

Lemma request_chain_app cm cm' reqs reqs2 :
  request_chain self cm reqs ->
  (reqs = [] /\ cm' = cm) \/ (exists req, reqs = [req] /\ cm' = messages req) ->
  request_chain self cm' reqs2 ->
  request_chain self cm (reqs ++ reqs2).
Proof.
  intros H1 [[-> ->]|(req & -> & ->)] H2; [exact H2|].
  simpl in *. tauto.
Qed.

(** Everything the loop over the content blocks does. *)
Lemma process_content_spec blocks cm rm w :
  exists reqs calls,
    extends w (snd (process_content blocks (cm, rm) w)) reqs calls /\
    request_chain self cm reqs /\
    (exists rest,
       omap (expected_call self) blocks = calls ++ rest /\
       (forall st', fst (process_content blocks (cm, rm) w) = Return st' ->
                    rest = [])) /\
    (forall cm' rm',
       fst (process_content blocks (cm, rm) w) = Return (cm', rm') ->
       exists outs, Forall2 block_output blocks outs /\
                    rm' = rm ++ concat outs) /\
    (forall attr,
       fst (process_content blocks (cm, rm) w) = Raise (AttributeError attr) ->
       exists block, block ∈ blocks /\ attribute_error_cause self block attr).
Proof.
  revert cm rm w. induction blocks as [|block blocks IH]; intros cm rm w.
  - exists [], []. split; [apply extends_refl|]. split; [exact I|].
    split; [exists []; auto|]. split; [|discriminate].
    intros cm' rm' [= <- <-]. exists []. split; [constructor|].
    now rewrite app_nil_r.
  - destruct (process_block_spec block cm rm w)
      as (r1 & c1 & He1 & Hch1 & Hres).
    rewrite process_content_cons. unfold bind.
    change (block :: blocks) with ([block] ++ blocks). rewrite omap_app.
    destruct (process_block block (cm, rm) w) as [[[cm1 rm1]|e] w1];
      simpl fst in *; simpl snd in *.
    + destruct Hres as ((out & Hout & ->) & Hcalls & Hcm).
      destruct (IH cm1 (rm ++ out) w1)
        as (r2 & c2 & He2 & Hch2 & (rest & Hrest & Hdone) & Hret & Hattr).
      exists (r1 ++ r2), (c1 ++ c2).
      split; [eapply extends_trans; eauto|].
      split; [eapply request_chain_app; eauto|].
      split; [|split].
      * exists rest. split; [|exact Hdone].
        rewrite Hcalls, Hrest. now rewrite app_assoc.
      * intros cm' rm' Heq.
        destruct (Hret cm' rm' Heq) as (outs & Houts & ->).
        exists (out :: outs). split; [now constructor|].
        simpl. now rewrite app_assoc.
      * intros attr Heq. destruct (Hattr attr Heq) as (b & Hb & Hcause).
        exists b. split; [|assumption].
        apply elem_of_app. now right.
    + destruct Hres as (Hcalls & Hcause).
      exists r1, c1. split; [exact He1|]. split; [exact Hch1|].
      split; [|split].
      * destruct Hcalls as [->|(call & Hcall & ->)].
        -- eexists. split; [reflexivity|discriminate].
        -- exists (omap (expected_call self) blocks).
           split; [|discriminate]. cbn. now rewrite Hcall.
      * discriminate.
      * intros attr [= ->]. exists block.
        split; [apply elem_of_app; left; apply elem_of_cons; auto|].
        now apply Hcause.
Qed.

(** Everything a turn does once Model-Call-1 is answered. *)
Lemma _process_query_spec message history w response :
  messages_create (length (backend_log w))
    (first_request self message (heap w history)) = Reply response ->
  exists followups calls,
    extends w (snd (_process_query message history w))
      (first_request self message (heap w history) :: followups) calls /\
    request_chain self
      (messages (first_request self message (heap w history))) followups /\
    (exists rest,
       omap (expected_call self) (content response) = calls ++ rest /\
       (forall output,
          fst (_process_query message history w) = Return output ->
          rest = [])) /\
    (forall output,
       fst (_process_query message history w) = Return output ->
       exists outs, Forall2 block_output (content response) outs /\
                    output = concat outs) /\
    (forall attr,
       fst (_process_query message history w) = Raise (AttributeError attr) ->
       exists block,
         block ∈ content response /\ attribute_error_cause self block attr).
Proof.
  intros Hmc.
  rewrite (_process_query_Reply _ _ _ _ _ _ _ Hmc).
  set (cm := messages (first_request self message (heap w history))).
  set (w1 := set_backend_log w
               (backend_log w
                ++ [first_request self message (heap w history)])).
  destruct (process_content_spec (content response) cm [] w1)
    as (reqs & calls & He & Hch & (rest & Hrest & Hdone) & Hret & Hattr).
  exists reqs, calls. unfold bind.
  destruct (process_content (content response) (cm, []) w1)
    as [[[cm' rm']|e] w2]; simpl fst in *; simpl snd in *.
  - split.
    { destruct He as (Hh & Hn & Hb & Hs). unfold extends.
      rewrite Hh, Hn, Hb, Hs. simpl. now rewrite <- app_assoc. }
    split; [exact Hch|]. split; [|split].
    + exists rest. split; [exact Hrest|]. intros output _. eapply Hdone; eauto.
    + intros output [= <-].
      destruct (Hret cm' rm' eq_refl) as (outs & Houts & ->). eauto.
    + discriminate.
  - split.
    { destruct He as (Hh & Hn & Hb & Hs). unfold extends.
      rewrite Hh, Hn, Hb, Hs. simpl. now rewrite <- app_assoc. }
    split; [exact Hch|]. split; [|split].
    + exists rest. split; [exact Hrest|]. discriminate.
    + discriminate.
    + intros attr [= ->]. now apply Hattr.
Qed.

(** X5. Every follow-up request of a turn is the request before it
    with one tool result appended as a user message: the buffer only
    grows, starting from the messages of Model-Call-1, and each
    follow-up uses the manager's model, 1024 tokens and no tools. *)
Theorem follow_ups_extend_buffer message history w :
  exists followups,
    backend_log (snd (_process_query message history w))
    = backend_log w
      ++ first_request self message (heap w history) :: followups /\
    request_chain self
      (messages (first_request self message (heap w history))) followups.
Proof.
  destruct (messages_create (length (backend_log w))
              (first_request self message (heap w history)))
    as [response|msg] eqn:Hmc.
  - destruct (_process_query_spec message history w response Hmc)
      as (followups & calls & (_ & _ & Hb & _) & Hch & _).
    now exists followups.
  - rewrite (_process_query_Failure _ _ _ _ _ _ _ Hmc).
    exists []. split; [reflexivity|exact I].
Qed.

(** X6. The output of a turn that completes follows the content
    blocks one by one, for any number of [tool_use] blocks: a text
    block gives its assistant message, a [tool_use] block its raw
    result message and then at most one follow-up assistant message,
    any other block nothing, in the order of the blocks. *)
Theorem turn_output_follows_blocks message history w response output :
  messages_create (length (backend_log w))
    (first_request self message (heap w history)) = Reply response ->
  fst (_process_query message history w) = Return output ->
  exists outs,
    Forall2 block_output (content response) outs /\ output = concat outs.
Proof.
  intros Hmc Hout.
  destruct (_process_query_spec message history w response Hmc)
    as (_ & _ & _ & _ & _ & Hret & _).
  now apply Hret.
Qed.

(** X7. The tool calls of a turn are those the registry prescribes
    for the [tool_use] blocks of the first response, in block order:
    each goes to the session of the client registered for the block's
    name, with the block's name and arguments.  A turn that aborts
    has made a prefix of these calls, a turn that completes all. *)
Theorem tool_calls_follow_registry message history w response :
  messages_create (length (backend_log w))
    (first_request self message (heap w history)) = Reply response ->
  exists calls rest,
    session_log (snd (_process_query message history w))
    = session_log w ++ calls /\
    omap (expected_call self) (content response) = calls ++ rest /\
    (forall output,
       fst (_process_query message history w) = Return output -> rest = []).
Proof.
  intros Hmc.
  destruct (_process_query_spec message history w response Hmc)
    as (followups & calls & (_ & _ & _ & Hs) & _ & (rest & Hrest & Hdone) & _).
  exists calls, rest. auto.
Qed.

(** X8. With a registry whose clients all have a session, as start-up
    leaves it, a turn ends in an [AttributeError] only by reading
    [session] from [None], and only when the first response has a
    [tool_use] block whose name is not in the registry. *)
Theorem attribute_error_only_when_unregistered message history w attr :
  registry_connected self ->
  fst (_process_query message history w) = Raise (AttributeError attr) ->
  attr = "session" /\
  exists response tool_name tool_args,
    messages_create (length (backend_log w))
      (first_request self message (heap w history)) = Reply response /\
    ToolUseBlock tool_name tool_args ∈ content response /\
    tool_to_client self !! tool_name = None.
Proof.
  intros Hinv Hraise.
  destruct (messages_create (length (backend_log w))
              (first_request self message (heap w history)))
    as [response|msg] eqn:Hmc.
  - destruct (_process_query_spec message history w response Hmc)
      as (_ & _ & _ & _ & _ & _ & Hattr).
    destruct (Hattr attr Hraise)
      as (block & Hin & n & a & -> & [[-> Hnone]|[-> (c & Hc & Hs)]]).
    + split; [reflexivity|]. exists response, n, a. auto.
    + destruct (Hinv n c Hc) as [sid Hsid]. congruence.
  - rewrite (_process_query_Failure _ _ _ _ _ _ _ Hmc) in Hraise.
    discriminate.
Qed.

Lemma block_output_assistant block out :
  block_output block out -> Forall assistant_text out.
Proof.
  intros H. destruct H; repeat constructor; simpl; eauto.
Qed.

Lemma concat_assistant blocks outs :
  Forall2 block_output blocks outs -> Forall assistant_text (concat outs).
Proof.
  induction 1 as [|block out blocks outs Hout _ IH]; simpl.
  - constructor.
  - apply Forall_app. split; [|exact IH].
    eapply block_output_assistant; eauto.
Qed.

Lemma _process_query_assistant message history w output :
  fst (_process_query message history w) = Return output ->
  Forall assistant_text output.
Proof.
  intros Hout.
  destruct (messages_create (length (backend_log w))
              (first_request self message (heap w history)))
    as [response|msg] eqn:Hmc.
  - destruct (_process_query_spec message history w response Hmc)
      as (_ & _ & _ & _ & _ & Hret & _).
    destruct (Hret output Hout) as (outs & Houts & ->).
    eapply concat_assistant; eauto.
  - rewrite (_process_query_Failure _ _ _ _ _ _ _ Hmc) in Hout.
    discriminate.
Qed.

(** X9. Every message a turn returns is a dictionary with role
    [assistant] and a string as content, the raw tool results
    included; no output message has another role. *)
Theorem turn_output_is_assistant message history w output :
  fst (_process_query message history w) = Return output ->
  Forall assistant_text output.
Proof. apply _process_query_assistant. Qed.

Lemma filter_assistant (msgs : list pydict) :
  Forall assistant_text msgs ->
  filter (fun e => chat_role (entry_role e)) (map HDict msgs)
  = map HDict msgs.
Proof.
  induction 1 as [|m msgs [Hrole _] _ IH]; simpl; [reflexivity|].
  rewrite filter_cons_True; [now rewrite IH|].
  simpl. rewrite Hrole. right. now left.
Qed.

(** X10. What [process_message] returns feeds the next turn whole:
    composed from the updated history, the request of the next turn
    is the messages of this turn's first request, then every output
    message of this turn reduced to its role and content (the
    metadata of raw results is dropped), then the next user message. *)
Theorem next_turn_request_extends message history w
    updated_history textbox_reset :
  fst (process_message message history w)
    = Return (updated_history, textbox_reset) ->
  exists output,
    fst (_process_query message history w) = Return output /\
    forall message',
      messages (first_request self message'
                  (heap (snd (process_message message history w))
                        updated_history))
      = messages (first_request self message (heap w history))
        ++ map (fun m => backend_message (HDict m)) output
        ++ [user_message message'].
Proof.
  destruct (_process_query_trace messages_create session_call_tool self
              message history w)
    as (followups & calls & (Hh & Hn & _) & _).
  pose proof (_process_query_assistant message history w) as Hassist.
  unfold process_message, list_add, bind, read_list, new_list, ret.
  destruct (_process_query message history w) as [[msgs|e] w1];
    simpl in Hh, Hn, Hassist; [|discriminate].
  simpl. intros Heq. injection Heq as Hu _. subst updated_history.
  exists msgs. split; [reflexivity|]. intros message'.
  rewrite !Nat.eqb_refl, Hh.
  unfold first_request. simpl messages.
  rewrite !compose_history_filter. simpl app.
  rewrite !filter_app, filter_assistant by (now apply Hassist).
  rewrite filter_cons_True by (simpl; now left).
  rewrite filter_nil, !map_app, map_map. simpl.
  now rewrite <- !app_assoc.
Qed.

End TurnMore.

(** ** History entries with missing keys *)

Lemma dict_get_missing d k : has_key d k = false -> dict_get d k = PyNone.
Proof.
  induction d as [|[k' v] d IH]; simpl; [reflexivity|].
  destruct (String.eqb k' k); [discriminate|exact IH].
Qed.

(** X11. A mapping in the history that has no [role] key is left out
    of the request as if it were not there, with no error; a mapping
    with a chat role and no [content] key is sent on with [None] as
    its content. *)
Theorem history_entries_with_missing_keys d :
  (has_key d "role" = false ->
   forall h1 h2 claude_messages,
     compose_history (h1 ++ HDict d :: h2) claude_messages
     = compose_history (h1 ++ h2) claude_messages) /\
  (chat_role (dict_get d "role") ->
   has_key d "content" = false ->
   forall claude_messages,
     compose_history [HDict d] claude_messages
     = claude_messages
       ++ [[("role", dict_get d "role"); ("content", PyNone)]]).
Proof.
  split.
  - intros Hkey h1 h2 cm. rewrite !compose_history_filter. f_equal. f_equal.
    rewrite !filter_app. f_equal.
    rewrite filter_cons_False; [reflexivity|].
    simpl. rewrite (dict_get_missing _ _ Hkey).
    intros [H|[H|H]]; discriminate.
  - intros Hrole Hkey cm. rewrite compose_history_filter. f_equal.
    rewrite filter_cons_True by exact Hrole.
    rewrite filter_nil. unfold backend_message. simpl.
    now rewrite (dict_get_missing _ _ Hkey).
Qed.

(** ** Tools listed by several servers *)

Section SharedTools.

Variable launch : nat -> string -> connect_outcome.
Variable finish : nat -> nat.

Lemma task_tools_connected specs i client path sid response_tools tool :
  specs !! i = Some (client, path) ->
  launch i path = Connected sid response_tools ->
  tool ∈ response_tools ->
  exists a b, task_tools launch specs i = a ++ tool_dict tool :: b.
Proof.
  intros Hs Hl Ht. unfold task_tools. rewrite Hs, Hl.
  apply list_elem_of_split.
  now apply list_elem_of_fmap_2.
Qed.

Lemma concat_two_tasks specs o1 o2 o3 i j di dj :
  (exists a b, task_tools launch specs i = a ++ di :: b) ->
  (exists a b, task_tools launch specs j = a ++ dj :: b) ->
  exists l1 l2 l3,
    concat (map (task_tools launch specs) (o1 ++ i :: o2 ++ j :: o3))
    = l1 ++ di :: l2 ++ dj :: l3.
Proof.
  intros (a & b & Hi) (a' & b' & Hj).
  exists (concat (map (task_tools launch specs) o1) ++ a),
         (b ++ concat (map (task_tools launch specs) o2) ++ a'),
         (b' ++ concat (map (task_tools launch specs) o3)).
  rewrite map_app, concat_app. simpl. rewrite map_app, concat_app. simpl.
  rewrite Hi, Hj. now rewrite <- !app_assoc.
Qed.

(** X12. The catalog is not de-duplicated: when two different
    launches connect, the tools of both are in the catalog as separate
    entries, also when they carry the same name. *)
Theorem shared_tool_listed_twice specs self i j
    ci pi sidi toolsi ti cj pj sidj toolsj tj :
  i <> j ->
  specs !! i = Some (ci, pi) ->
  launch i pi = Connected sidi toolsi ->
  ti ∈ toolsi ->
  specs !! j = Some (cj, pj) ->
  launch j pj = Connected sidj toolsj ->
  tj ∈ toolsj ->
  let catalog :=
    all_tools (fst (_initialize_servers_of launch finish specs self)) in
  (exists l1 l2 l3,
     catalog = l1 ++ tool_dict ti :: l2 ++ tool_dict tj :: l3) \/
  (exists l1 l2 l3,
     catalog = l1 ++ tool_dict tj :: l2 ++ tool_dict ti :: l3).
Proof.
  intros Hne Hsi Hli Hti Hsj Hlj Htj catalog. unfold catalog.
  rewrite _initialize_servers_of_fst, run_tasks_all_tools.
  pose proof (task_tools_connected specs i ci pi sidi toolsi ti Hsi Hli Hti)
    as Hi.
  pose proof (task_tools_connected specs j cj pj sidj toolsj tj Hsj Hlj Htj)
    as Hj.
  assert (Hin_i : i ∈ completion_order finish (length specs))
    by (apply completion_order_elem; now apply lookup_lt_Some in Hsi).
  assert (Hin_j : j ∈ completion_order finish (length specs))
    by (apply completion_order_elem; now apply lookup_lt_Some in Hsj).
  apply list_elem_of_split in Hin_i as (o1 & o2 & Ho). rewrite Ho in *.
  apply elem_of_app in Hin_j as [Hin_j|Hin_j].
  - right. apply list_elem_of_split in Hin_j as (o3 & o4 & ->).
    rewrite <- app_assoc. simpl.
    destruct (concat_two_tasks specs o3 o4 o2 j i (tool_dict tj)
                (tool_dict ti) Hj Hi) as (l1 & l2 & l3 & Heq).
    exists (all_tools self ++ l1), l2, l3.
    rewrite Heq. now rewrite <- app_assoc.
  - left. apply elem_of_cons in Hin_j as [Heq|Hin_j]; [congruence|].
    apply list_elem_of_split in Hin_j as (o3 & o4 & ->).
    destruct (concat_two_tasks specs o1 o3 o4 i j (tool_dict ti)
                (tool_dict tj) Hi Hj) as (l1 & l2 & l3 & Heq).
    exists (all_tools self ++ l1), l2, l3.
    rewrite Heq. now rewrite <- app_assoc.
Qed.

End SharedTools.

(** ** The sample runs, continued *)

Lemma startup_keeps_registry_connected_witness :
  registry_connected sample_manager.
Proof.
  refine (startup_keeps_registry_connected sample_launch sample_finish
            servers MultiMCPManager_init _).
  intros tool_name client H. simpl in H. rewrite lookup_empty in H.
  discriminate.
Defined.

Lemma turn_output_follows_blocks_witness :
  exists outs,
    Forall2 block_output
      [TextBlock "Let me check."; ToolUseBlock "get_os_name" (PyDict []);
       TextBlock "Done."] outs /\
    [assistant_message "Let me check.";
     raw_result_message "get_os_name" "Linux";
     assistant_message "You run Linux.";
     assistant_message "Done."] = concat outs.
Proof.
  refine (turn_output_follows_blocks backend_one_tool sessions_ok
            sample_manager "What OS?" 0 sample_world
            {| content := [TextBlock "Let me check.";
                           ToolUseBlock "get_os_name" (PyDict []);
                           TextBlock "Done."] |}
            [assistant_message "Let me check.";
             raw_result_message "get_os_name" "Linux";
             assistant_message "You run Linux.";
             assistant_message "Done."] _ _);
    vm_compute; reflexivity.
Defined.

Lemma tool_calls_follow_registry_witness :
  exists calls rest,
    session_log (snd (_process_query backend_one_tool sessions_broken
                        sample_manager "What OS?" 0 sample_world))
    = [] ++ calls /\
    omap (expected_call sample_manager)
      [TextBlock "Let me check."; ToolUseBlock "get_os_name" (PyDict []);
       TextBlock "Done."]
    = calls ++ rest /\
    (forall output,
       fst (_process_query backend_one_tool sessions_broken sample_manager
              "What OS?" 0 sample_world) = Return output ->
       rest = []).
Proof.
  exact (tool_calls_follow_registry backend_one_tool sessions_broken
           sample_manager "What OS?" 0 sample_world
           {| content := [TextBlock "Let me check.";
                          ToolUseBlock "get_os_name" (PyDict []);
                          TextBlock "Done."] |} eq_refl).
Defined.

Lemma attribute_error_only_when_unregistered_witness :
  "session" = "session" /\
  exists response tool_name tool_args,
    backend_one_tool 0 (first_request MultiMCPManager_init "What OS?"
                          sample_history) = Reply response /\
    ToolUseBlock tool_name tool_args ∈ content response /\
    tool_to_client MultiMCPManager_init !! tool_name = None.
Proof.
  refine (attribute_error_only_when_unregistered backend_one_tool
            sessions_ok MultiMCPManager_init "What OS?" 0 sample_world
            "session" _ _).
  - intros tool_name client H. simpl in H. rewrite lookup_empty in H.
    discriminate.
  - vm_compute. reflexivity.
Defined.

Lemma turn_output_is_assistant_witness :
  Forall assistant_text
    [assistant_message "Let me check.";
     raw_result_message "get_os_name" "Linux";
     assistant_message "You run Linux.";
     assistant_message "Done."].
Proof.
  refine (turn_output_is_assistant backend_one_tool sessions_ok
            sample_manager "What OS?" 0 sample_world _ _).
  vm_compute. reflexivity.
Defined.

Lemma next_turn_request_extends_witness :
  exists output,
    fst (_process_query backend_one_tool sessions_ok sample_manager
           "What OS?" 0 sample_world) = Return output /\
    forall message',
      messages (first_request sample_manager message'
                  (heap (snd (process_message backend_one_tool sessions_ok
                                sample_manager "What OS?" 0 sample_world))
                        2))
      = messages (first_request sample_manager "What OS?" sample_history)
        ++ map (fun m => backend_message (HDict m)) output
        ++ [user_message message'].
Proof.
  refine (next_turn_request_extends backend_one_tool sessions_ok
            sample_manager "What OS?" 0 sample_world 2
            {| value := EmptyString |} _).
  vm_compute. reflexivity.
Defined.

Lemma history_entries_with_missing_keys_witness :
  compose_history
    ([HDict (user_message "hi")]
     ++ HDict [("content", PyStr "no role")]
        :: [HDict (user_message "again")]) []
  = compose_history
      ([HDict (user_message "hi")] ++ [HDict (user_message "again")]) [] /\
  compose_history [HDict [("role", PyStr "user")]] []
  = [] ++ [[("role", PyStr "user"); ("content", PyNone)]].
Proof.
  split.
  - refine (proj1 (history_entries_with_missing_keys
                     [("content", PyStr "no role")]) _ _ _ _).
    reflexivity.
  - refine (proj2 (history_entries_with_missing_keys
                     [("role", PyStr "user")]) _ _ _).
    + simpl. now left.
    + reflexivity.
Defined.

Lemma shared_tool_listed_twice_witness :
  (exists l1 l2 l3,
     all_tools (fst (_initialize_servers both_launch reversed_finish
                       MultiMCPManager_init))
     = l1 ++ tool_dict get_os_name_tool
          :: l2 ++ tool_dict get_os_name_tool :: l3) \/
  (exists l1 l2 l3,
     all_tools (fst (_initialize_servers both_launch reversed_finish
                       MultiMCPManager_init))
     = l1 ++ tool_dict get_os_name_tool
          :: l2 ++ tool_dict get_os_name_tool :: l3).
Proof.
  refine (shared_tool_listed_twice both_launch reversed_finish servers
            MultiMCPManager_init 0 1
            os_client "server/mcp_os_name.py" 10 [get_os_name_tool]
            get_os_name_tool
            disk_client "server/mcp_disk_usage.py" 11 [get_os_name_tool]
            get_os_name_tool _ _ _ _ _ _ _);
    try reflexivity; try lia; apply elem_of_cons; left; reflexivity.
Defined.
